(** * TrueTime: the uptime source and the NTP packet types

    A shallow embedding of [NetworkTime/uptime.c], [CTrueTime/ntp_types.h]
    and [TrueTime/Bridging.h], together with the packet codec, the round-trip
    estimator, the server poller and the sync coordinator that the
    specification describes around them. *)

From Stdlib Require Import ZArith QArith List Bool String Lia.
Local Open Scope string_scope.
Local Open Scope list_scope.
From Stdlib Require Import Strings.Byte.
Import ListNotations.
Local Open Scope Z_scope.

(** ** Signed machine integers

    [struct timeval] holds two signed integers.  A C subtraction on a signed
    type of [bits] bits is modelled by the mathematical difference reduced
    into the two's-complement range. *)

Definition wrap_signed (bits : positive) (z : Z) : Z :=
  (z + 2 ^ (Z.pos bits - 1)) mod 2 ^ Z.pos bits - 2 ^ (Z.pos bits - 1).

Definition fits_signed (bits : positive) (z : Z) : Prop :=
  - 2 ^ (Z.pos bits - 1) <= z < 2 ^ (Z.pos bits - 1).

(** ** Bridging.h *)

Module Bridging.

Definition MSEC_PER_SEC : Z := 1000.
Definition USEC_PER_MSEC : Z := 1000.

End Bridging.

(** ** uptime.c *)

Module Uptime.

(** [struct timeval] of <sys/time.h>. *)
Record timeval : Type := { tv_sec : Z; tv_usec : Z }.

(** What the two system calls of one execution answer: the [int] each
    returns and the [struct timeval] each leaves in its output buffer.
    [gettimeofday] reads the wall clock, [sysctl] on
    [{CTL_KERN, KERN_BOOTTIME}] the kernel's record of the boot time. *)
Record host : Type := {
  gettimeofday_ret : Z;
  gettimeofday_now : timeval;
  sysctl_ret : Z;
  sysctl_boottime : timeval
}.

(** The caller's [*tv], with the stores made through the pointer, oldest
    first. *)
Inductive store : Type :=
| StoreSec (v : Z)
| StoreUsec (v : Z).

Record mem : Type := { tv : timeval; stores : list store }.

Definition M (A : Type) : Type := mem -> A * mem.

Definition ret {A} (a : A) : M A := fun m => (a, m).

Definition bind {A B} (c : M A) (k : A -> M B) : M B :=
  fun m => let (a, m') := c m in k a m'.

Notation "c ;; k" := (bind c (fun _ => k))
  (at level 61, right associativity).

Definition set_tv_sec (v : Z) : M unit := fun m =>
  (tt, {| tv := {| tv_sec := v; tv_usec := tv_usec (tv m) |};
          stores := stores m ++ [StoreSec v] |}).

Definition set_tv_usec (v : Z) : M unit := fun m =>
  (tt, {| tv := {| tv_sec := tv_sec (tv m); tv_usec := v |};
          stores := stores m ++ [StoreUsec v] |}).

(** A timeval as the two calls hand it out. *)
Definition canonical (t : timeval) : Prop :=
  0 <= tv_sec t /\
  0 <= tv_usec t < Bridging.USEC_PER_MSEC * Bridging.MSEC_PER_SEC.

Section WithTimeval.

(** [time_t] and [suseconds_t] are typedefs of the system headers; their
    widths are left open. *)
Variables time_t_bits suseconds_t_bits : positive.

Definition representable (t : timeval) : Prop :=
  fits_signed time_t_bits (tv_sec t) /\
  fits_signed suseconds_t_bits (tv_usec t).

(** [now.tv_sec - boottime.tv_sec] and [now.tv_usec - boottime.tv_usec]. *)
Definition sub_time_t (a b : Z) : Z := wrap_signed time_t_bits (a - b).
Definition sub_suseconds_t (a b : Z) : Z := wrap_signed suseconds_t_bits (a - b).

(** [int uptime(struct timeval *tv)].  The pointer is [__nonnull] and
    asserted so: [mem] always holds the pointee. *)
Definition uptime (h : host) : M Z :=
  (* int ret = gettimeofday(&now, NULL); *)
  let now := gettimeofday_now h in
  let ret0 := gettimeofday_ret h in
  (* if (ret != 0) return ret; *)
  if negb (ret0 =? 0) then ret ret0
  else
    (* ret = sysctl(mib, 2, &boottime, &size, NULL, 0); *)
    let boottime := sysctl_boottime h in
    let ret1 := sysctl_ret h in
    (* if (ret == 0) { tv->tv_sec = ...; tv->tv_usec = ...; } *)
    (if ret1 =? 0 then
       set_tv_sec (sub_time_t (tv_sec now) (tv_sec boottime)) ;;
       set_tv_usec (sub_suseconds_t (tv_usec now) (tv_usec boottime))
     else ret tt) ;;
    (* return ret; *)
    ret ret1.

(** The pair of the two differences of lines 25 and 26. *)
Definition difference (now boottime : timeval) : timeval :=
  {| tv_sec := sub_time_t (tv_sec now) (tv_sec boottime);
     tv_usec := sub_suseconds_t (tv_usec now) (tv_usec boottime) |}.

Definition uptime_ret (h : host) (m : mem) : Z := fst (uptime h m).
Definition uptime_mem (h : host) (m : mem) : mem := snd (uptime h m).

End WithTimeval.

End Uptime.

(** ** ntp_types.h: the declared layout *)

Module CType.

(** The C types the header uses.  Every struct of the header carries
    [__attribute__((packed, aligned(1)))]: members follow each other with
    no padding.  A bit-field takes its [width] bits next to the one
    before; the first one declared sits in the least significant bits of
    its byte, as the little-endian ABIs the library is built for allocate
    them. *)
Inductive ctype : Type :=
| uint8_t
| uint16_t
| uint32_t
| array (elem : ctype) (len : nat)
| packed_struct (members : list member)
with member : Type :=
| field (name : string) (ty : ctype)
| bitfield (name : string) (ty : ctype) (width : nat).

Definition align8 (bit : nat) : nat := (8 * ((bit + 7) / 8))%nat.

Fixpoint sizeof (t : ctype) : nat :=
  match t with
  | uint8_t => 1
  | uint16_t => 2
  | uint32_t => 4
  | array elem len => len * sizeof elem
  | packed_struct members =>
      (fix end_bit (pos : nat) (ms : list member) {struct ms} : nat :=
         match ms with
         | [] => align8 pos
         | field _ ty :: ms' => end_bit (align8 pos + 8 * sizeof ty) ms'
         | bitfield _ _ width :: ms' => end_bit (pos + width) ms'
         end) 0 members / 8
  end%nat.

(** Where a member lies: its first bit, counted from the start of the
    struct, and its width in bits. *)
Record slot : Type := { slot_name : string; slot_bit : nat; slot_width : nat }.

Fixpoint place (pos : nat) (ms : list member) : list slot :=
  match ms with
  | [] => []
  | field name ty :: ms' =>
      {| slot_name := name; slot_bit := align8 pos;
         slot_width := 8 * sizeof ty |}
      :: place (align8 pos + 8 * sizeof ty) ms'
  | bitfield name _ width :: ms' =>
      {| slot_name := name; slot_bit := pos; slot_width := width |}
      :: place (pos + width) ms'
  end%nat.

Definition layout (t : ctype) : list slot :=
  match t with
  | packed_struct members => place 0 members
  | _ => []
  end.

Definition find_slot (t : ctype) (name : string) : option slot :=
  find (fun s => String.eqb (slot_name s) name) (layout t).

(** [offsetof(t, name)], in bytes. *)
Definition offsetof (t : ctype) (name : string) : option nat :=
  option_map (fun s => (slot_bit s / 8)%nat) (find_slot t name).

Definition ntp_time32_t : ctype :=
  packed_struct [field "whole" uint16_t; field "fraction" uint16_t].

Definition ntp_time64_t : ctype :=
  packed_struct [field "whole" uint32_t; field "fraction" uint32_t].

Definition ntp_time_t : ctype := ntp_time64_t.

Definition ntp_packet_t : ctype :=
  packed_struct [
    bitfield "client_mode" uint8_t 3;
    bitfield "version_number" uint8_t 3;
    bitfield "leap_indicator" uint8_t 2;
    field "stratum" uint8_t;
    field "poll" uint8_t;
    field "precision" uint8_t;
    field "root_delay" ntp_time32_t;
    field "root_dispersion" ntp_time32_t;
    field "reference_id" (array uint8_t 4);
    field "reference_time" ntp_time_t;
    field "originate_time" ntp_time_t;
    field "receive_time" ntp_time_t;
    field "transmit_time" ntp_time_t
  ].

(** Slots that follow each other from bit [pos] on with no gap and no
    overlap, and the bits a list of slots takes in all. *)
Fixpoint abutting (pos : nat) (ss : list slot) : bool :=
  match ss with
  | [] => true
  | s :: ss' => (slot_bit s =? pos)%nat && abutting (pos + slot_width s) ss'
  end.

Definition total_width (ss : list slot) : nat :=
  fold_right (fun s acc => (slot_width s + acc)%nat) 0%nat ss.

End CType.

(** ** ntp_types.h: the values *)

Module Ntp.

(** An unsigned field of [bits] bits holds exactly the integers of
    [0 .. 2^bits - 1]. *)
Definition is_uint (bits : Z) (z : Z) : bool := (0 <=? z) && (z <? 2 ^ bits).

Record ntp_time32_t : Type := {
  short_whole : Z;      (* uint16_t whole *)
  short_fraction : Z    (* uint16_t fraction *)
}.

Record ntp_time64_t : Type := {
  whole : Z;            (* uint32_t whole *)
  fraction : Z          (* uint32_t fraction *)
}.

Definition ntp_time_t : Type := ntp_time64_t.

Record ntp_packet_t : Type := {
  client_mode : Z;      (* uint8_t : 3 *)
  version_number : Z;   (* uint8_t : 3 *)
  leap_indicator : Z;   (* uint8_t : 2 *)
  stratum : Z;
  poll : Z;
  precision : Z;
  root_delay : ntp_time32_t;
  root_dispersion : ntp_time32_t;
  reference_id : list Z;  (* uint8_t [4] *)
  reference_time : ntp_time_t;
  originate_time : ntp_time_t;
  receive_time : ntp_time_t;
  transmit_time : ntp_time_t
}.

Definition time32_ok (t : ntp_time32_t) : bool :=
  is_uint 16 (short_whole t) && is_uint 16 (short_fraction t).

Definition time64_ok (t : ntp_time64_t) : bool :=
  is_uint 32 (whole t) && is_uint 32 (fraction t).

(** The values of the packet type: every field within its declared
    width. *)
Definition packet_ok (p : ntp_packet_t) : bool :=
  is_uint 3 (client_mode p) && is_uint 3 (version_number p) &&
  is_uint 2 (leap_indicator p) &&
  is_uint 8 (stratum p) && is_uint 8 (poll p) && is_uint 8 (precision p) &&
  time32_ok (root_delay p) && time32_ok (root_dispersion p) &&
  (List.length (reference_id p) =? 4)%nat && forallb (is_uint 8) (reference_id p) &&
  time64_ok (reference_time p) && time64_ok (originate_time p) &&
  time64_ok (receive_time p) && time64_ok (transmit_time p).

(** The 64 bits of a timestamp read as one unsigned number, and the
    seconds they stand for: the binary point lies between [whole] and
    [fraction]. *)
Definition time64_bits (t : ntp_time64_t) : Z := whole t * 2 ^ 32 + fraction t.

(** Modelled from the spec: the conversion to seconds is not among the
    sources; section 3 gives the fraction a resolution of 2^-32. *)
Definition fraction_seconds (t : ntp_time64_t) : Q :=
  Qmake (fraction t) (2 ^ 32).

(** Modelled from the spec: whole seconds plus the fraction (section 3);
    the conversion is not among the sources. *)
Definition seconds (t : ntp_time64_t) : Q :=
  inject_Z (whole t) + fraction_seconds t.

(** Modelled from the spec: the same reading for the 16+16 bit root delay
    and root dispersion (section 4.1: split into whole and fraction as laid
    out); the conversion is not among the sources. *)
Definition short_seconds (t : ntp_time32_t) : Q :=
  inject_Z (short_whole t) + Qmake (short_fraction t) (2 ^ 16).

Definition timestamps (p : ntp_packet_t) : list ntp_time_t :=
  [reference_time p; originate_time p; receive_time p; transmit_time p].

End Ntp.

(** ** PacketCodec *)

Module PacketCodec.
Import Ntp.

(** The low eight bits of [z], as a byte. *)
Definition byte_of_Z (z : Z) : byte :=
  match Byte.of_N (Z.to_N (Z.land z 255)) with
  | Some b => b
  | None => x00
  end.

Definition Z_of_byte (b : byte) : Z := Z.of_N (Byte.to_N b).

(** Big-endian writers and readers for the unsigned fields. *)
Definition put_u8 (z : Z) : list byte := [byte_of_Z z].

Definition put_be16 (z : Z) : list byte :=
  [byte_of_Z (Z.shiftr z 8); byte_of_Z z].

Definition put_be32 (z : Z) : list byte :=
  [byte_of_Z (Z.shiftr z 24); byte_of_Z (Z.shiftr z 16);
   byte_of_Z (Z.shiftr z 8); byte_of_Z z].

Definition get_u8 (bs : list byte) (off : nat) : Z :=
  Z_of_byte (nth off bs x00).

Definition get_be16 (bs : list byte) (off : nat) : Z :=
  Z.lor (Z.shiftl (get_u8 bs off) 8) (get_u8 bs (off + 1)).

Definition get_be32 (bs : list byte) (off : nat) : Z :=
  Z.lor (Z.shiftl (get_u8 bs off) 24)
    (Z.lor (Z.shiftl (get_u8 bs (off + 1)) 16)
       (Z.lor (Z.shiftl (get_u8 bs (off + 2)) 8) (get_u8 bs (off + 3)))).

Definition put_time32 (t : ntp_time32_t) : list byte :=
  put_be16 (short_whole t) ++ put_be16 (short_fraction t).

Definition put_time64 (t : ntp_time64_t) : list byte :=
  put_be32 (whole t) ++ put_be32 (fraction t).

Definition get_time32 (bs : list byte) (off : nat) : ntp_time32_t :=
  {| short_whole := get_be16 bs off; short_fraction := get_be16 bs (off + 2) |}.

Definition get_time64 (bs : list byte) (off : nat) : ntp_time64_t :=
  {| whole := get_be32 bs off; fraction := get_be32 bs (off + 4) |}.

(** The byte the three bit-fields share: [client_mode] in bits 0-2,
    [version_number] in bits 3-5, [leap_indicator] in bits 6-7. *)
Definition header_byte (p : ntp_packet_t) : Z :=
  Z.lor (Z.shiftl (Z.land (leap_indicator p) 3) 6)
    (Z.lor (Z.shiftl (Z.land (version_number p) 7) 3)
       (Z.land (client_mode p) 7)).

Definition put_reference_id (p : ntp_packet_t) : list byte :=
  map (fun i => byte_of_Z (nth i (reference_id p) 0)) [0; 1; 2; 3]%nat.

(** Modelled from the spec: the encoder is not among the sources; section
    6 fixes the wire format as the 48-byte record with every multi-byte
    field big-endian, which is the object representation of the packed
    [ntp_packet_t] after its multi-byte members are put in network
    order. *)
Definition encode (p : ntp_packet_t) : list byte :=
  put_u8 (header_byte p) ++
  put_u8 (stratum p) ++ put_u8 (poll p) ++ put_u8 (precision p) ++
  put_time32 (root_delay p) ++ put_time32 (root_dispersion p) ++
  put_reference_id p ++
  put_time64 (reference_time p) ++ put_time64 (originate_time p) ++
  put_time64 (receive_time p) ++ put_time64 (transmit_time p).

(** Modelled from the spec: the decoder is not among the sources; section
    9 asks for a field-by-field read through a table of byte offsets and
    widths, behind a check of the length. *)
Definition decode (bs : list byte) : option ntp_packet_t :=
  if (List.length bs =? 48)%nat then
    Some {|
      client_mode := Z.land (get_u8 bs 0) 7;
      version_number := Z.land (Z.shiftr (get_u8 bs 0) 3) 7;
      leap_indicator := Z.shiftr (get_u8 bs 0) 6;
      stratum := get_u8 bs 1;
      poll := get_u8 bs 2;
      precision := get_u8 bs 3;
      root_delay := get_time32 bs 4;
      root_dispersion := get_time32 bs 8;
      reference_id := map (get_u8 bs) [12; 13; 14; 15]%nat;
      reference_time := get_time64 bs 16;
      originate_time := get_time64 bs 24;
      receive_time := get_time64 bs 32;
      transmit_time := get_time64 bs 40
    |}
  else None.

(** The [len] bytes of a datagram from byte [off] on. *)
Definition slice (off len : nat) (bs : list byte) : list byte :=
  firstn len (skipn off bs).

(** Mode and leap-indicator codes of the protocol. *)
Definition mode_client : Z := 3.
Definition mode_server : Z := 4.
Definition leap_alarm : Z := 3.

(** Modelled from the spec: what the validation of section 4.1 depends
    on (the codec is not among the sources). *)
Record config : Type := {
  version : Z;                  (* the one protocol version spoken *)
  permit_stratum_zero : bool    (* stratum 0 explicitly permitted *)
}.

(** Modelled from the spec: [DecodeError] of section 7, with the rule
    that was broken. *)
Inductive DecodeError : Type :=
| BadLength
| UnexpectedMode
| UnexpectedVersion
| Unsynchronized
| StratumZero.

(** Modelled from the spec: the validating decoder is not among the
    sources; the rules are those of section 4.1, with the mode and version
    check of section 3. *)
Definition decodeResponse (cfg : config) (bs : list byte)
  : DecodeError + ntp_packet_t :=
  match decode bs with
  | None => inl BadLength
  | Some p =>
      if negb (client_mode p =? mode_server) then inl UnexpectedMode
      else if negb (version_number p =? version cfg) then inl UnexpectedVersion
      else if leap_indicator p =? leap_alarm then inl Unsynchronized
      else if (stratum p =? 0) && negb (permit_stratum_zero cfg)
           then inl StratumZero
      else inr p
  end.

Definition zero_time32 : ntp_time32_t := {| short_whole := 0; short_fraction := 0 |}.
Definition zero_time64 : ntp_time64_t := {| whole := 0; fraction := 0 |}.

(** Modelled from the spec: the request builder is not among the sources;
    section 4.1 has it write the device time into the timestamp the server
    echoes back as originate, which is the transmit field. *)
Definition request (cfg : config) (originateTime : ntp_time64_t) : ntp_packet_t :=
  {| client_mode := mode_client;
     version_number := version cfg;
     leap_indicator := 0;
     stratum := 0; poll := 0; precision := 0;
     root_delay := zero_time32; root_dispersion := zero_time32;
     reference_id := [0; 0; 0; 0];
     reference_time := zero_time64; originate_time := zero_time64;
     receive_time := zero_time64;
     transmit_time := originateTime |}.

(** Modelled from the spec: [encodeRequest] of section 4.1 (not among
    the sources). *)
Definition encodeRequest (cfg : config) (originateTime : ntp_time64_t) : list byte :=
  encode (request cfg originateTime).

(** Modelled from the spec: the data flow of section 2, where a decoded
    response is fed to its consumer; the flow is not among the sources.  A
    rejected datagram is handed to no one. *)
Definition receive {R : Type} (cfg : config) (consumer : ntp_packet_t -> R)
    (bs : list byte) : DecodeError + R :=
  match decodeResponse cfg bs with
  | inl e => inl e
  | inr p => inr (consumer p)
  end.

End PacketCodec.

(** ** Sample *)

Module Sample.

(** Modelled from the spec: the [Sample] of section 3 (not among the
    sources). *)
Record t : Type := {
  offset : Q;
  roundTripDelay : Q;
  dispersion : Q;
  serverStratum : Z;
  capturedAtMonotonic : Q
}.

End Sample.

(** ** RoundTripEstimator *)

Module RoundTripEstimator.

Definition Qltb (x y : Q) : bool := negb (Qle_bool y x).

(** Modelled from the spec: the estimator is not among the sources; these
    are the two closed forms of section 4.2, in exact rational seconds. *)
Definition offset (t1 t2 t3 t4 : Q) : Q := ((t2 - t1) + (t3 - t4)) / 2.

(** Modelled from the spec: the second closed form of section 4.2. *)
Definition roundTripDelay (t1 t2 t3 t4 : Q) : Q := (t4 - t1) - (t3 - t2).

Inductive ClockAnomaly : Type :=
| NegativeDelay
| DeviceClockBackward.

(** Modelled from the spec: the edge cases of section 4.2 (the sources
    have no estimator): a negative delay rejects the sample, and so does
    [t4 < t1]. *)
Definition reject (t1 t2 t3 t4 : Q) : option ClockAnomaly :=
  if Qltb (roundTripDelay t1 t2 t3 t4) 0 then Some NegativeDelay
  else if Qltb t4 t1 then Some DeviceClockBackward
  else None.

(** Modelled from the spec: section 4.2 leaves open how the server's root
    dispersion and root delay combine with half the measured delay; they
    are added. *)
Definition dispersion (rootDispersion rootDelay delay : Q) : Q :=
  rootDispersion + rootDelay + delay / 2.

(** Modelled from the spec: one exchange turned into a sample (the
    estimator is not among the sources).  [t1] and [t4] are the device
    clock at send and at receive, [t2] and [t3] the server's receive and
    transmit timestamps. *)
Definition estimate (p : Ntp.ntp_packet_t) (t1 t4 monotonicNow : Q)
  : ClockAnomaly + Sample.t :=
  let t2 := Ntp.seconds (Ntp.receive_time p) in
  let t3 := Ntp.seconds (Ntp.transmit_time p) in
  match reject t1 t2 t3 t4 with
  | Some a => inl a
  | None =>
      inr {| Sample.offset := offset t1 t2 t3 t4;
             Sample.roundTripDelay := roundTripDelay t1 t2 t3 t4;
             Sample.dispersion :=
               dispersion (Ntp.short_seconds (Ntp.root_dispersion p))
                          (Ntp.short_seconds (Ntp.root_delay p))
                          (roundTripDelay t1 t2 t3 t4);
             Sample.serverStratum := Ntp.stratum p;
             Sample.capturedAtMonotonic := monotonicNow |}
  end.

End RoundTripEstimator.

(** ** UptimeAnchor *)

Module UptimeAnchor.

(** Modelled from the spec: the [Anchor] of section 3 (not among the
    sources). *)
Record Anchor : Type := {
  correctedWallTime : Q;
  monotonicAtCapture : Q
}.

Inductive QueryError : Type := NoAnchor.

(** Modelled from the spec: the anchor is not among the sources; section
    4.4 gives [capture] and [now]. *)
Definition capture (correctedWallTime monotonicNow : Q) : Anchor :=
  {| correctedWallTime := correctedWallTime;
     monotonicAtCapture := monotonicNow |}.

(** Modelled from the spec: [now()] of section 4.4, on the anchor held,
    if any. *)
Definition now (current : option Anchor) (now_monotonic : Q) : QueryError + Q :=
  match current with
  | None => inl NoAnchor
  | Some a =>
      inr (correctedWallTime a + (now_monotonic - monotonicAtCapture a))%Q
  end.

End UptimeAnchor.

(** ** ServerPoller *)

Module ServerPoller.
Import RoundTripEstimator.

Definition endpoint : Type := string.

(** Modelled from the spec: the per-round configuration of sections 4.3
    and 6 (the poller is not among the sources). *)
Record config : Type := {
  timeout : Q;
  retry_budget : nat;
  minimum_accept : nat;
  dispersion_ceiling : Q
}.

Inductive EndpointFailure : Type :=
| Timeout
| Decode (e : PacketCodec.DecodeError)
| Anomaly (a : ClockAnomaly).

(** What one request met: no datagram within the timeout, or a datagram
    with the device clock at send [t1] and at receive [t4] and the
    monotonic reading at receive. *)
Inductive attempt : Type :=
| NoReply
| Reply (t1 t4 monotonicNow : Q) (bs : list byte).

(** Modelled from the spec: one request of section 4.3: await, decode,
    feed to the estimator. *)
Definition attempt_result (codec : PacketCodec.config) (a : attempt)
  : EndpointFailure + Sample.t :=
  match a with
  | NoReply => inl Timeout
  | Reply t1 t4 mono bs =>
      match PacketCodec.receive codec (fun p => estimate p t1 t4 mono) bs with
      | inl e => inl (Decode e)
      | inr (inl a) => inl (Anomaly a)
      | inr (inr s) => inr s
      end
  end.

(** Modelled from the spec: the poller is not among the sources; section
    4.3 retries an endpoint on timeout or decode failure until the budget
    is spent. *)
Fixpoint query (codec : PacketCodec.config) (retries : nat)
    (attempts : list attempt) (last : EndpointFailure)
  : EndpointFailure + Sample.t :=
  match attempts with
  | [] => inl last
  | a :: rest =>
      match attempt_result codec a with
      | inr s => inr s
      | inl f =>
          match retries with
          | O => inl f
          | S retries' => query codec retries' rest f
          end
      end
  end.

Definition samples {E} (results : list (E * (EndpointFailure + Sample.t)))
  : list Sample.t :=
  flat_map (fun r => match snd r with inr s => [s] | inl _ => [] end) results.

Definition failures {E} (results : list (E * (EndpointFailure + Sample.t)))
  : list (E * EndpointFailure) :=
  flat_map (fun r => match snd r with inl f => [(fst r, f)] | inr _ => [] end)
           results.

(** Modelled from the spec: samples above the dispersion ceiling are
    discarded (section 4.3); what remains are the valid samples. *)
Definition within_ceiling (cfg : config) (s : Sample.t) : bool :=
  Qle_bool (Sample.dispersion s) (dispersion_ceiling cfg).

Definition valid_samples {E} (cfg : config)
    (results : list (E * (EndpointFailure + Sample.t))) : list Sample.t :=
  filter (within_ceiling cfg) (samples results).

(** Modelled from the spec: lower stratum first, then lower dispersion,
    then lower delay (section 4.3). *)
Definition prefer (a b : Sample.t) : bool :=
  if Sample.serverStratum a <? Sample.serverStratum b then true
  else if Sample.serverStratum b <? Sample.serverStratum a then false
  else if Qltb (Sample.dispersion a) (Sample.dispersion b) then true
  else if Qltb (Sample.dispersion b) (Sample.dispersion a) then false
  else Qle_bool (Sample.roundTripDelay a) (Sample.roundTripDelay b).

Definition best (ss : list Sample.t) : option Sample.t :=
  fold_left (fun acc s =>
               match acc with
               | None => Some s
               | Some b => if prefer b s then Some b else Some s
               end) ss None.

Inductive RoundFailure : Type := InsufficientSamples.

Inductive RoundOutcome : Type :=
| Winner (s : Sample.t)
| RoundFailed (why : RoundFailure) (failed : list (endpoint * EndpointFailure)).

(** Modelled from the spec: the selection policy of section 4.3 (the
    poller is not among the sources). *)
Definition select (cfg : config)
    (results : list (endpoint * (EndpointFailure + Sample.t))) : RoundOutcome :=
  let valid := valid_samples cfg results in
  if (List.length valid <? minimum_accept cfg)%nat
  then RoundFailed InsufficientSamples (failures results)
  else match best valid with
       | Some s => Winner s
       | None => RoundFailed InsufficientSamples (failures results)
       end.

(** Modelled from the spec: every endpoint is queried on its own; a
    round is their results, selected from (section 4.3). *)
Definition poll (codec : PacketCodec.config) (cfg : config)
    (round : list (endpoint * list attempt))
  : list (endpoint * (EndpointFailure + Sample.t)) :=
  map (fun r => (fst r, query codec (retry_budget cfg) (snd r) Timeout)) round.

Definition run_round (codec : PacketCodec.config) (cfg : config)
    (round : list (endpoint * list attempt)) : RoundOutcome :=
  select cfg (poll codec cfg round).

End ServerPoller.

(** ** SyncCoordinator *)

Module SyncCoordinator.
Import UptimeAnchor ServerPoller.

(** Modelled from the spec: the coordinator is not among the sources;
    these are the states of section 4.5 with what each one holds. *)
Inductive State : Type :=
| Uninitialized
| Syncing (prior : option Anchor)
| Synced (a : Anchor)
| Failed (prior : option Anchor) (reason : RoundFailure).

Inductive Event : Type :=
| ReferenceTimeUpdated (t : Q)
| SyncFailed (reason : RoundFailure).

(** Modelled from the spec: the anchor a state holds (section 4.5). *)
Definition anchor (st : State) : option Anchor :=
  match st with
  | Uninitialized => None
  | Syncing prior => prior
  | Synced a => Some a
  | Failed prior _ => prior
  end.

(** Modelled from the spec: [start()] from [Uninitialized] or [Failed],
    and the re-entry of periodic mode from [Synced] (section 4.5). *)
Definition start (st : State) : State :=
  match st with
  | Uninitialized => Syncing None
  | Failed prior _ => Syncing prior
  | Synced a => Syncing (Some a)
  | Syncing prior => Syncing prior
  end.

(** Modelled from the spec: how a round's outcome ends [Syncing] (section
    4.5; the coordinator is not among the sources).  An outcome that
    arrives in another state is dropped. *)
Definition finish (st : State) (outcome : RoundOutcome)
    (now_wall now_monotonic : Q) : State * option Event :=
  match st with
  | Syncing prior =>
      match outcome with
      | Winner s =>
          let corrected := (now_wall + Sample.offset s)%Q in
          (Synced (capture corrected now_monotonic),
           Some (ReferenceTimeUpdated corrected))
      | RoundFailed why _ => (Failed prior why, Some (SyncFailed why))
      end
  | _ => (st, None)
  end.

(** Modelled from the spec: the public operations of section 4.5. *)
Definition currentTime (st : State) (now_monotonic : Q) : QueryError + Q :=
  now (anchor st) now_monotonic.

Definition isSynced (st : State) : bool :=
  match st with
  | Synced _ => true
  | _ => false
  end.

Definition forceSync (codec : PacketCodec.config) (cfg : config)
    (round : list (endpoint * list attempt)) (now_wall now_monotonic : Q)
    (st : State) : State * RoundOutcome :=
  let outcome := run_round codec cfg round in
  (fst (finish (start st) outcome now_wall now_monotonic), outcome).

End SyncCoordinator.

(** ** Inputs used in the examples *)

Module Example.
Import Uptime.

(** A mobile device of the LP64 kind: a 64-bit [time_t], a 32-bit
    [suseconds_t]. *)
Definition lp64_time_t : positive := 64.
Definition lp64_suseconds_t : positive := 32.

Definition caller_tv : mem :=
  {| tv := {| tv_sec := 7; tv_usec := 7 |}; stores := [] |}.

(** Booted at 1700000000.900000, read an hour later at .100000. *)
Definition hour_after_boot : host :=
  {| gettimeofday_ret := 0;
     gettimeofday_now := {| tv_sec := 1700003600; tv_usec := 100000 |};
     sysctl_ret := 0;
     sysctl_boottime := {| tv_sec := 1700000000; tv_usec := 900000 |} |}.

(** The same machine and boot-time record; only the wall clock reads a
    day more. *)
Definition wall_clock_moved : host :=
  {| gettimeofday_ret := 0;
     gettimeofday_now := {| tv_sec := 1700090000; tv_usec := 100000 |};
     sysctl_ret := 0;
     sysctl_boottime := {| tv_sec := 1700000000; tv_usec := 900000 |} |}.

(** The wall clock set a day forward, and the boot-time record with it. *)
Definition both_moved : host :=
  {| gettimeofday_ret := 0;
     gettimeofday_now := {| tv_sec := 1700090000; tv_usec := 100000 |};
     sysctl_ret := 0;
     sysctl_boottime := {| tv_sec := 1700086400; tv_usec := 900000 |} |}.

Definition gettimeofday_fails : host :=
  {| gettimeofday_ret := -1;
     gettimeofday_now := {| tv_sec := 0; tv_usec := 0 |};
     sysctl_ret := 0;
     sysctl_boottime := {| tv_sec := 1700000000; tv_usec := 900000 |} |}.

Definition sysctl_fails : host :=
  {| gettimeofday_ret := 0;
     gettimeofday_now := {| tv_sec := 1700003600; tv_usec := 100000 |};
     sysctl_ret := -1;
     sysctl_boottime := {| tv_sec := 0; tv_usec := 0 |} |}.

(** [gettimeofday] fails again, with other bytes left in the buffers. *)
Definition gettimeofday_fails_again : host :=
  {| gettimeofday_ret := -1;
     gettimeofday_now := {| tv_sec := 99; tv_usec := 99 |};
     sysctl_ret := -1;
     sysctl_boottime := {| tv_sec := 42; tv_usec := 42 |} |}.

(** The same boot, read 30.85 s after [hour_after_boot]. *)
Definition half_minute_later : host :=
  {| gettimeofday_ret := 0;
     gettimeofday_now := {| tv_sec := 1700003630; tv_usec := 950000 |};
     sysctl_ret := 0;
     sysctl_boottime := {| tv_sec := 1700000000; tv_usec := 900000 |} |}.

(** A stratum-2 server answering in protocol version 3. *)
Definition codec : PacketCodec.config :=
  {| PacketCodec.version := 3; PacketCodec.permit_stratum_zero := false |}.

Definition lenient_codec : PacketCodec.config :=
  {| PacketCodec.version := 3; PacketCodec.permit_stratum_zero := true |}.

Definition server_reply : Ntp.ntp_packet_t :=
  {| Ntp.client_mode := PacketCodec.mode_server;
     Ntp.version_number := 3;
     Ntp.leap_indicator := 0;
     Ntp.stratum := 2; Ntp.poll := 6; Ntp.precision := 233;
     Ntp.root_delay := {| Ntp.short_whole := 0; Ntp.short_fraction := 1311 |};
     Ntp.root_dispersion := {| Ntp.short_whole := 0; Ntp.short_fraction := 655 |};
     Ntp.reference_id := [17; 253; 4; 125];
     Ntp.reference_time := {| Ntp.whole := 3913056000; Ntp.fraction := 0 |};
     Ntp.originate_time := {| Ntp.whole := 3913056100; Ntp.fraction := 0 |};
     Ntp.receive_time := {| Ntp.whole := 3913056100; Ntp.fraction := 2147483648 |};
     Ntp.transmit_time := {| Ntp.whole := 3913056100; Ntp.fraction := 2576980378 |} |}.

(** The same answer from a server that reports stratum 0. *)
Definition kiss_of_death : Ntp.ntp_packet_t :=
  {| Ntp.client_mode := PacketCodec.mode_server;
     Ntp.version_number := 3;
     Ntp.leap_indicator := 0;
     Ntp.stratum := 0; Ntp.poll := 6; Ntp.precision := 233;
     Ntp.root_delay := PacketCodec.zero_time32;
     Ntp.root_dispersion := PacketCodec.zero_time32;
     Ntp.reference_id := [82; 65; 84; 69];
     Ntp.reference_time := PacketCodec.zero_time64;
     Ntp.originate_time := {| Ntp.whole := 3913056100; Ntp.fraction := 0 |};
     Ntp.receive_time := {| Ntp.whole := 3913056100; Ntp.fraction := 2147483648 |};
     Ntp.transmit_time := {| Ntp.whole := 3913056100; Ntp.fraction := 2576980378 |} |}.

(** A datagram with the mode of a request where a reply is due. *)
Definition echoed_request : list byte :=
  PacketCodec.encodeRequest codec {| Ntp.whole := 3913056100; Ntp.fraction := 0 |}.

(** The literal exchange of section 8, in seconds. *)
Definition ms (n : Z) : Q := (inject_Z n / inject_Z Bridging.MSEC_PER_SEC)%Q.
Definition t1 : Q := ms 1000000.
Definition t2 : Q := ms 1000500.
Definition t3 : Q := ms 1000600.
Definition t4 : Q := ms 1000100.

(** A round that needs two samples and gets one: the first endpoint
    answers, the second never does. *)
Definition poller : ServerPoller.config :=
  {| ServerPoller.timeout := 8;
     ServerPoller.retry_budget := 1;
     ServerPoller.minimum_accept := 2;
     ServerPoller.dispersion_ceiling := 1 |}.

Definition one_of_two : list (ServerPoller.endpoint * list ServerPoller.attempt) :=
  [("time.example.org",
    [ServerPoller.Reply (inject_Z 3913056100) (inject_Z 3913056101) 5000
                        (PacketCodec.encode server_reply)]);
   ("unreachable.example.org", [ServerPoller.NoReply; ServerPoller.NoReply])].

Definition earlier_anchor : UptimeAnchor.Anchor :=
  UptimeAnchor.capture (inject_Z 3913050000) 100.

End Example.

(** * Properties *)

(** ** Signed machine integers *)

Lemma pow2_split (bits : positive) :
  2 ^ Z.pos bits = 2 * 2 ^ (Z.pos bits - 1).
Proof.
  replace (Z.pos bits) with (Z.succ (Z.pos bits - 1)) at 1 by lia.
  rewrite Z.pow_succ_r by lia. reflexivity.
Qed.

Lemma wrap_signed_fits bits z : fits_signed bits z -> wrap_signed bits z = z.
Proof.
  unfold fits_signed, wrap_signed. intros Hz.
  rewrite pow2_split. rewrite Z.mod_small; lia.
Qed.

Lemma wrap_signed_range bits z : fits_signed bits (wrap_signed bits z).
Proof.
  unfold fits_signed, wrap_signed.
  assert (Hpos : 0 < 2 ^ Z.pos bits) by (apply Z.pow_pos_nonneg; lia).
  pose proof (Z.mod_pos_bound (z + 2 ^ (Z.pos bits - 1)) _ Hpos) as Hm.
  pose proof (pow2_split bits) as Hs.
  revert Hm. generalize ((z + 2 ^ (Z.pos bits - 1)) mod 2 ^ Z.pos bits).
  intros r Hr. lia.
Qed.

(** ** uptime.c *)

Section UptimeFacts.
Import Uptime.

Variables time_t_bits suseconds_t_bits : positive.

(** POSIX: [suseconds_t] holds at least [-1 .. 1000000]; [time_t] is taken
    to have 32 bits or more. *)
Hypothesis suseconds_t_range : 1000000 < 2 ^ (Z.pos suseconds_t_bits - 1).
Hypothesis time_t_range : 2 ^ 31 <= 2 ^ (Z.pos time_t_bits - 1).

Lemma uptime_gettimeofday_failed h m :
  gettimeofday_ret h <> 0 ->
  uptime time_t_bits suseconds_t_bits h m = (gettimeofday_ret h, m).
Proof.
  intros Hg. unfold uptime.
  apply Z.eqb_neq in Hg. rewrite Hg. reflexivity.
Qed.

Lemma uptime_sysctl_failed h m :
  gettimeofday_ret h = 0 -> sysctl_ret h <> 0 ->
  uptime time_t_bits suseconds_t_bits h m = (sysctl_ret h, m).
Proof.
  intros Hg Hs. unfold uptime.
  rewrite Hg. apply Z.eqb_neq in Hs. cbn. unfold bind. rewrite Hs.
  reflexivity.
Qed.

Lemma uptime_succeeded h m :
  gettimeofday_ret h = 0 -> sysctl_ret h = 0 ->
  let d := difference time_t_bits suseconds_t_bits
             (gettimeofday_now h) (sysctl_boottime h) in
  uptime time_t_bits suseconds_t_bits h m =
    (0, {| tv := d;
           stores := stores m ++ [StoreSec (tv_sec d); StoreUsec (tv_usec d)] |}).
Proof.
  intros Hg Hs. unfold uptime, difference.
  rewrite Hg, Hs. cbn. unfold bind, set_tv_sec, set_tv_usec. cbn.
  rewrite <- app_assoc. reflexivity.
Qed.

Lemma stores_grow (l : list store) (a b : store) : l ++ [a; b] <> l.
Proof.
  intros Heq. apply (f_equal (@List.length store)) in Heq.
  rewrite length_app in Heq. cbn in Heq. lia.
Qed.

(** Differences of canonical, representable readings fit their types:
    the subtraction of lines 25 and 26 is then the exact one. *)
Lemma difference_exact now boottime :
  fits_signed time_t_bits (tv_sec now - tv_sec boottime) ->
  fits_signed suseconds_t_bits (tv_usec now - tv_usec boottime) ->
  difference time_t_bits suseconds_t_bits now boottime =
    {| tv_sec := tv_sec now - tv_sec boottime;
       tv_usec := tv_usec now - tv_usec boottime |}.
Proof.
  intros Hs Hu. unfold difference, sub_time_t, sub_suseconds_t.
  rewrite !wrap_signed_fits by assumption. reflexivity.
Qed.

Lemma canonical_difference_fits now boottime :
  canonical now -> canonical boottime ->
  representable time_t_bits suseconds_t_bits now ->
  representable time_t_bits suseconds_t_bits boottime ->
  fits_signed time_t_bits (tv_sec now - tv_sec boottime) /\
  fits_signed suseconds_t_bits (tv_usec now - tv_usec boottime).
Proof.
  unfold canonical, representable, fits_signed,
    Bridging.USEC_PER_MSEC, Bridging.MSEC_PER_SEC.
  intros [Hn1 Hn2] [Hb1 Hb2] [Hn3 Hn4] [Hb3 Hb4]. lia.
Qed.

(** C9: [uptime] stores through [tv] exactly when it returns 0.  When
    [gettimeofday] fails its nonzero code is returned and [*tv] is left as it
    was; when [sysctl] fails its nonzero code is returned and [*tv] is left
    as it was; when both succeed 0 is returned and [*tv] holds the
    componentwise difference [now - boottime]. *)
Theorem uptime_writes_exactly_on_success (h : host) (m : mem) :
  let r := uptime_ret time_t_bits suseconds_t_bits h m in
  let m' := uptime_mem time_t_bits suseconds_t_bits h m in
  let now := gettimeofday_now h in
  let boottime := sysctl_boottime h in
  (r = 0 <-> stores m' <> stores m) /\
  (r = 0 <-> gettimeofday_ret h = 0 /\ sysctl_ret h = 0) /\
  (gettimeofday_ret h <> 0 -> r = gettimeofday_ret h /\ m' = m) /\
  (gettimeofday_ret h = 0 -> sysctl_ret h <> 0 -> r = sysctl_ret h /\ m' = m) /\
  (gettimeofday_ret h = 0 -> sysctl_ret h = 0 ->
     r = 0 /\
     tv m' = difference time_t_bits suseconds_t_bits now boottime /\
     stores m' =
       stores m ++ [StoreSec (tv_sec (tv m')); StoreUsec (tv_usec (tv m'))] /\
     (fits_signed time_t_bits (tv_sec now - tv_sec boottime) ->
      fits_signed suseconds_t_bits (tv_usec now - tv_usec boottime) ->
      tv m' = {| tv_sec := tv_sec now - tv_sec boottime;
                 tv_usec := tv_usec now - tv_usec boottime |})).
Proof.
  unfold uptime_ret, uptime_mem. cbv zeta.
  destruct (Z.eq_dec (gettimeofday_ret h) 0) as [Hg | Hg].
  - destruct (Z.eq_dec (sysctl_ret h) 0) as [Hs | Hs].
    + pose proof (uptime_succeeded h m Hg Hs) as Hu. cbv zeta in Hu.
      rewrite Hu. cbn [fst snd tv stores].
      repeat split; try tauto; try congruence.
      * intros _. apply stores_grow.
      * intros Hf1 Hf2. apply difference_exact; assumption.
    + rewrite (uptime_sysctl_failed h m Hg Hs). cbn [fst snd].
      repeat split; try tauto; try congruence.
  - rewrite (uptime_gettimeofday_failed h m Hg). cbn [fst snd].
    repeat split; try tauto; try congruence.
Qed.

(** C2, as amended: two executions whose wall-clock readings differ by an
    adjustment that the boot-time record has followed (the same shift in
    each component) return the same code and leave the same value in
    [*tv]: the result depends on the two readings through their
    componentwise difference only. *)
Theorem uptime_invariant_under_common_shift (h1 h2 : host) (m : mem) :
  gettimeofday_ret h1 = gettimeofday_ret h2 ->
  sysctl_ret h1 = sysctl_ret h2 ->
  tv_sec (gettimeofday_now h2) - tv_sec (gettimeofday_now h1) =
    tv_sec (sysctl_boottime h2) - tv_sec (sysctl_boottime h1) ->
  tv_usec (gettimeofday_now h2) - tv_usec (gettimeofday_now h1) =
    tv_usec (sysctl_boottime h2) - tv_usec (sysctl_boottime h1) ->
  uptime time_t_bits suseconds_t_bits h1 m =
  uptime time_t_bits suseconds_t_bits h2 m.
Proof.
  intros Hg Hs Hsec Husec. unfold uptime, sub_time_t, sub_suseconds_t.
  rewrite Hg, Hs.
  replace (tv_sec (gettimeofday_now h2) - tv_sec (sysctl_boottime h2))
    with (tv_sec (gettimeofday_now h1) - tv_sec (sysctl_boottime h1)) by lia.
  replace (tv_usec (gettimeofday_now h2) - tv_usec (sysctl_boottime h2))
    with (tv_usec (gettimeofday_now h1) - tv_usec (sysctl_boottime h1)) by lia.
  reflexivity.
Qed.

(** Whenever the current reading's microseconds are below the boot
    time's, the stored [tv_usec] is their negative difference and
    [tv_sec] is the plain difference of the seconds. *)
Lemma uptime_keeps_negative_usec (h : host) (m : mem) :
  gettimeofday_ret h = 0 -> sysctl_ret h = 0 ->
  canonical (gettimeofday_now h) -> canonical (sysctl_boottime h) ->
  representable time_t_bits suseconds_t_bits (gettimeofday_now h) ->
  representable time_t_bits suseconds_t_bits (sysctl_boottime h) ->
  tv_usec (gettimeofday_now h) < tv_usec (sysctl_boottime h) ->
  let out := tv (uptime_mem time_t_bits suseconds_t_bits h m) in
  tv_usec out = tv_usec (gettimeofday_now h) - tv_usec (sysctl_boottime h) /\
  tv_usec out < 0 /\
  tv_sec out = tv_sec (gettimeofday_now h) - tv_sec (sysctl_boottime h).
Proof.
  intros Hg Hs Hcn Hcb Hrn Hrb Hlt. cbv zeta. unfold uptime_mem.
  pose proof (uptime_succeeded h m Hg Hs) as Hu. cbv zeta in Hu. rewrite Hu.
  cbn [snd tv].
  destruct (canonical_difference_fits _ _ Hcn Hcb Hrn Hrb) as [Hf1 Hf2].
  rewrite (difference_exact _ _ Hf1 Hf2). cbn [tv_sec tv_usec]. lia.
Qed.

(** C10: the result is not brought into canonical form.  There are
    readings, canonical themselves, with the current [tv_usec] below the
    boot time's, on which [uptime], whatever [*tv] held before, returns 0
    and stores a negative [tv_usec] (outside [0 .. 999999]) next to a
    [tv_sec] that is the plain difference of the seconds: no borrow. *)
Theorem uptime_result_not_normalized :
  exists h : host,
    let now := gettimeofday_now h in
    let boottime := sysctl_boottime h in
    canonical now /\ canonical boottime /\
    representable time_t_bits suseconds_t_bits now /\
    representable time_t_bits suseconds_t_bits boottime /\
    tv_usec now < tv_usec boottime /\
    forall m : mem,
      let out := tv (uptime_mem time_t_bits suseconds_t_bits h m) in
      uptime_ret time_t_bits suseconds_t_bits h m = 0 /\
      stores (uptime_mem time_t_bits suseconds_t_bits h m) =
        stores m ++ [StoreSec (tv_sec now - tv_sec boottime);
                     StoreUsec (tv_usec now - tv_usec boottime)] /\
      tv_usec out = tv_usec now - tv_usec boottime /\
      tv_usec out < 0 /\
      ~ canonical out /\
      tv_sec out = tv_sec now - tv_sec boottime.
Proof.
  exists Example.hour_after_boot. cbv zeta.
  assert (Hcn : canonical (gettimeofday_now Example.hour_after_boot))
    by (unfold canonical; cbn; lia).
  assert (Hcb : canonical (sysctl_boottime Example.hour_after_boot))
    by (unfold canonical; cbn; lia).
  assert (Hrn : representable time_t_bits suseconds_t_bits
                  (gettimeofday_now Example.hour_after_boot))
    by (unfold representable, fits_signed; cbn [Example.hour_after_boot
          gettimeofday_now tv_sec tv_usec]; lia).
  assert (Hrb : representable time_t_bits suseconds_t_bits
                  (sysctl_boottime Example.hour_after_boot))
    by (unfold representable, fits_signed; cbn [Example.hour_after_boot
          sysctl_boottime tv_sec tv_usec]; lia).
  assert (Hlt : tv_usec (gettimeofday_now Example.hour_after_boot) <
                tv_usec (sysctl_boottime Example.hour_after_boot))
    by (cbn; lia).
  split; [exact Hcn|]. split; [exact Hcb|]. split; [exact Hrn|].
  split; [exact Hrb|]. split; [exact Hlt|].
  intros m.
  destruct (uptime_keeps_negative_usec Example.hour_after_boot m
              eq_refl eq_refl Hcn Hcb Hrn Hrb Hlt)
    as (Hu & Hneg & Hsec).
  pose proof (uptime_succeeded Example.hour_after_boot m eq_refl eq_refl)
    as Hok. cbv zeta in Hok.
  destruct (canonical_difference_fits _ _ Hcn Hcb Hrn Hrb) as [Hf1 Hf2].
  rewrite (difference_exact _ _ Hf1 Hf2) in Hok.
  split; [unfold uptime_ret; rewrite Hok; reflexivity|].
  split; [unfold uptime_mem; rewrite Hok; reflexivity|].
  split; [exact Hu|]. split; [exact Hneg|].
  split; [|exact Hsec].
  unfold canonical. lia.
Qed.

End UptimeFacts.

(** The statements above at the LP64 widths, on a device read an hour
    after boot. *)
Lemma uptime_writes_exactly_on_success_witness :
  Uptime.uptime_ret 64 32 Example.hour_after_boot Example.caller_tv = 0 /\
  Uptime.tv (Uptime.uptime_mem 64 32 Example.hour_after_boot Example.caller_tv)
    = {| Uptime.tv_sec := 3600; Uptime.tv_usec := -800000 |}.
Proof.
  destruct (uptime_writes_exactly_on_success 64 32 Example.hour_after_boot
              Example.caller_tv) as (_ & _ & _ & _ & H).
  destruct (H eq_refl eq_refl) as (Hr & _ & _ & Hex).
  split; [exact Hr|].
  apply Hex; unfold fits_signed; simpl; lia.
Defined.

Lemma uptime_invariant_under_common_shift_witness :
  Uptime.uptime 64 32 Example.hour_after_boot Example.caller_tv =
  Uptime.uptime 64 32 Example.both_moved Example.caller_tv.
Proof.
  apply (uptime_invariant_under_common_shift 64 32 Example.hour_after_boot
           Example.both_moved Example.caller_tv); reflexivity.
Defined.

Lemma uptime_result_not_normalized_witness :
  exists h : Uptime.host,
    Uptime.tv_usec (Uptime.gettimeofday_now h) <
      Uptime.tv_usec (Uptime.sysctl_boottime h) /\
    forall m : Uptime.mem,
      Uptime.uptime_ret 64 32 h m = 0 /\
      Uptime.tv_usec (Uptime.tv (Uptime.uptime_mem 64 32 h m)) < 0.
Proof.
  destruct (uptime_result_not_normalized 64 32) as (h & H);
    [reflexivity | simpl; lia |].
  exists h. cbv zeta in H.
  destruct H as (_ & _ & _ & _ & Hlt & Hall).
  split; [exact Hlt|].
  intros m. destruct (Hall m) as (Hr & _ & _ & Hneg & _).
  split; [exact Hr | exact Hneg].
Defined.

(** C2, as stated, fails: with the boot-time record and both return codes
    equal, a different wall-clock reading gives a different result. *)
Lemma uptime_follows_the_wall_clock :
  ~ (forall (time_t_bits suseconds_t_bits : positive)
            (h1 h2 : Uptime.host) (m : Uptime.mem),
       Uptime.gettimeofday_ret h1 = Uptime.gettimeofday_ret h2 ->
       Uptime.sysctl_ret h1 = Uptime.sysctl_ret h2 ->
       Uptime.sysctl_boottime h1 = Uptime.sysctl_boottime h2 ->
       Uptime.tv (Uptime.uptime_mem time_t_bits suseconds_t_bits h1 m) =
       Uptime.tv (Uptime.uptime_mem time_t_bits suseconds_t_bits h2 m)).
Proof.
  intros H.
  specialize (H Example.lp64_time_t Example.lp64_suseconds_t
                Example.hour_after_boot Example.wall_clock_moved
                Example.caller_tv eq_refl eq_refl eq_refl).
  vm_compute in H. discriminate H.
Qed.

(** ** ntp_types.h *)

(** The powers of two that are field widths, as literals. *)
Ltac pow2 :=
  change (2 ^ 2) with 4 in *; change (2 ^ 3) with 8 in *;
  change (2 ^ 6) with 64 in *; change (2 ^ 8) with 256 in *;
  change (2 ^ 16) with 65536 in *; change (2 ^ 24) with 16777216 in *;
  change (2 ^ 32) with 4294967296 in *.

Section LayoutFacts.
Import CType.

Lemma is_uint_spec (bits z : Z) :
  Ntp.is_uint bits z = true <-> 0 <= z < 2 ^ bits.
Proof.
  unfold Ntp.is_uint. rewrite andb_true_iff, Z.leb_le, Z.ltb_lt. tauto.
Qed.

Lemma time64_ok_spec (t : Ntp.ntp_time64_t) :
  Ntp.time64_ok t = true <->
  0 <= Ntp.whole t < 2 ^ 32 /\ 0 <= Ntp.fraction t < 2 ^ 32.
Proof.
  unfold Ntp.time64_ok. rewrite andb_true_iff, !is_uint_spec. tauto.
Qed.

Lemma time32_ok_spec (t : Ntp.ntp_time32_t) :
  Ntp.time32_ok t = true <->
  0 <= Ntp.short_whole t < 2 ^ 16 /\ 0 <= Ntp.short_fraction t < 2 ^ 16.
Proof.
  unfold Ntp.time32_ok. rewrite andb_true_iff, !is_uint_spec. tauto.
Qed.

Lemma packet_ok_timestamps (p : Ntp.ntp_packet_t) :
  Ntp.packet_ok p = true ->
  forall t, In t (Ntp.timestamps p) -> Ntp.time64_ok t = true.
Proof.
  unfold Ntp.packet_ok, Ntp.timestamps. rewrite !andb_true_iff.
  intros H t [<- | [<- | [<- | [<- | []]]]]; tauto.
Qed.

(** C1: the packed packet record takes 48 bytes, and every packet value
    is encoded in exactly that many bytes. *)
Theorem ntp_packet_wire_size :
  sizeof ntp_packet_t = 48%nat /\
  forall p : Ntp.ntp_packet_t,
    List.length (PacketCodec.encode p) = sizeof ntp_packet_t.
Proof.
  split; [reflexivity | intros p; reflexivity].
Qed.

End LayoutFacts.

(** ** PacketCodec *)

Section CodecFacts.
Import Ntp PacketCodec.

Lemma Z_of_byte_range (b : byte) : 0 <= Z_of_byte b < 256.
Proof.
  unfold Z_of_byte. pose proof (Byte.to_N_bounded b). lia.
Qed.

Lemma land_low_bits (z : Z) (n : Z) :
  0 <= n -> Z.land z (2 ^ n - 1) = z mod 2 ^ n.
Proof.
  intros Hn. rewrite <- Z.land_ones by assumption.
  rewrite Z.ones_equiv, <- Z.sub_1_r. reflexivity.
Qed.

Lemma Z_of_byte_of_Z (z : Z) : Z_of_byte (byte_of_Z z) = z mod 256.
Proof.
  unfold Z_of_byte, byte_of_Z.
  change 255 with (2 ^ 8 - 1). rewrite land_low_bits by lia.
  change (2 ^ 8) with 256.
  assert (Hr : 0 <= z mod 256 < 256) by (apply Z.mod_pos_bound; lia).
  destruct (Byte.of_N (Z.to_N (z mod 256))) as [b|] eqn:E.
  - apply Byte.to_of_N in E. rewrite E. lia.
  - apply Byte.of_N_None_iff in E. lia.
Qed.

Lemma byte_of_Z_of_byte (b : byte) : byte_of_Z (Z_of_byte b) = b.
Proof.
  unfold byte_of_Z. change 255 with (2 ^ 8 - 1).
  rewrite land_low_bits by lia.
  rewrite Z.mod_small by apply Z_of_byte_range.
  unfold Z_of_byte. rewrite N2Z.id, Byte.of_to_N. reflexivity.
Qed.

(** Bits that do not overlap are added by [Z.lor]. *)
Lemma lor_shiftl_add (hi lo n : Z) :
  0 <= n -> 0 <= lo < 2 ^ n -> Z.lor (Z.shiftl hi n) lo = hi * 2 ^ n + lo.
Proof.
  intros Hn Hlo.
  assert (Hdisj : Z.land (Z.shiftl hi n) lo = 0).
  { apply Z.bits_inj'. intros i Hi.
    rewrite Z.land_spec, Z.bits_0.
    destruct (Z.lt_ge_cases i n) as [Hlt | Hge].
    - rewrite Z.shiftl_spec_low by assumption. reflexivity.
    - rewrite <- (Z.mod_small lo (2 ^ n)) by assumption.
      rewrite Z.mod_pow2_bits_high by lia. apply andb_false_r. }
  rewrite <- Z.lxor_lor, <- Z.add_nocarry_lxor by assumption.
  rewrite Z.shiftl_mul_pow2 by assumption. reflexivity.
Qed.

Lemma get_u8_range (bs : list byte) (off : nat) : 0 <= get_u8 bs off < 2 ^ 8.
Proof. unfold get_u8. apply Z_of_byte_range. Qed.

Lemma get_be16_arith (bs : list byte) (off : nat) :
  get_be16 bs off = get_u8 bs off * 2 ^ 8 + get_u8 bs (off + 1).
Proof.
  unfold get_be16. apply lor_shiftl_add; [lia | apply get_u8_range].
Qed.

Lemma get_be32_arith (bs : list byte) (off : nat) :
  get_be32 bs off =
    get_u8 bs off * 2 ^ 24 + get_u8 bs (off + 1) * 2 ^ 16 +
    get_u8 bs (off + 2) * 2 ^ 8 + get_u8 bs (off + 3).
Proof.
  unfold get_be32.
  pose proof (get_u8_range bs (off + 1)) as H1.
  pose proof (get_u8_range bs (off + 2)) as H2.
  pose proof (get_u8_range bs (off + 3)) as H3.
  rewrite (lor_shiftl_add (get_u8 bs (off + 2)) _ 8) by (pow2; lia).
  rewrite (lor_shiftl_add (get_u8 bs (off + 1)) _ 16) by (pow2; lia).
  rewrite (lor_shiftl_add (get_u8 bs off) _ 24) by (pow2; lia).
  lia.
Qed.

Lemma be16_join (x : Z) :
  0 <= x < 2 ^ 16 ->
  ((x / 2 ^ 8) mod 256) * 2 ^ 8 + x mod 256 = x.
Proof.
  intros H. pow2. Z.div_mod_to_equations. lia.
Qed.

Lemma be32_join (x : Z) :
  0 <= x < 2 ^ 32 ->
  ((x / 2 ^ 24) mod 256) * 2 ^ 24 + ((x / 2 ^ 16) mod 256) * 2 ^ 16 +
  ((x / 2 ^ 8) mod 256) * 2 ^ 8 + x mod 256 = x.
Proof.
  intros H. pow2. Z.div_mod_to_equations. lia.
Qed.

(** The byte of the three bit-fields, read as a number. *)
Lemma header_byte_arith (p : ntp_packet_t) :
  header_byte p =
    (leap_indicator p mod 4) * 64 + (version_number p mod 8) * 8 +
    client_mode p mod 8.
Proof.
  unfold header_byte.
  change 3 with (2 ^ 2 - 1) at 1. change 7 with (2 ^ 3 - 1).
  rewrite !land_low_bits by lia. pow2.
  pose proof (Z.mod_pos_bound (leap_indicator p) 4 eq_refl) as Hl.
  pose proof (Z.mod_pos_bound (version_number p) 8 eq_refl) as Hv.
  pose proof (Z.mod_pos_bound (client_mode p) 8 eq_refl) as Hm.
  rewrite (lor_shiftl_add (version_number p mod 8) _ 3) by (pow2; lia).
  rewrite (lor_shiftl_add (leap_indicator p mod 4) _ 6) by (pow2; lia).
  pow2. lia.
Qed.

(** The three bit-fields come back out of the byte they share. *)
Lemma header_fields (m v l : Z) :
  0 <= m < 2 ^ 3 -> 0 <= v < 2 ^ 3 -> 0 <= l < 2 ^ 2 ->
  let h := ((l mod 4) * 64 + (v mod 8) * 8 + m mod 8) mod 256 in
  Z.land h 7 = m /\ Z.land (Z.shiftr h 3) 7 = v /\ Z.shiftr h 6 = l.
Proof.
  intros Hm Hv Hl. cbv zeta.
  change 7 with (2 ^ 3 - 1). rewrite !land_low_bits by lia.
  rewrite !Z.shiftr_div_pow2 by lia. pow2.
  rewrite (Z.mod_small l 4), (Z.mod_small v 8), (Z.mod_small m 8) by lia.
  rewrite (Z.mod_small _ 256) by lia.
  Z.div_mod_to_equations. lia.
Qed.

Lemma get_be16_range (bs : list byte) (off : nat) :
  0 <= get_be16 bs off < 2 ^ 16.
Proof.
  rewrite get_be16_arith.
  pose proof (get_u8_range bs off). pose proof (get_u8_range bs (off + 1)).
  pow2. lia.
Qed.

Lemma get_be32_range (bs : list byte) (off : nat) :
  0 <= get_be32 bs off < 2 ^ 32.
Proof.
  rewrite get_be32_arith.
  pose proof (get_u8_range bs off). pose proof (get_u8_range bs (off + 1)).
  pose proof (get_u8_range bs (off + 2)). pose proof (get_u8_range bs (off + 3)).
  pow2. lia.
Qed.

(** Whatever a datagram is decoded to is a value of the packet type. *)
Lemma decode_packet_ok (bs : list byte) (p : ntp_packet_t) :
  decode bs = Some p -> packet_ok p = true.
Proof.
  unfold decode. destruct (List.length bs =? 48)%nat; [|discriminate].
  intros Hp. injection Hp as <-.
  unfold packet_ok, time32_ok, time64_ok, get_time32, get_time64.
  cbn [client_mode version_number leap_indicator stratum poll precision
       root_delay root_dispersion reference_id reference_time originate_time
       receive_time transmit_time short_whole short_fraction whole fraction
       map List.length forallb Nat.eqb].
  pose proof (get_u8_range bs 0) as H0. change (2 ^ 8) with 256 in H0.
  change 7 with (2 ^ 3 - 1). rewrite !land_low_bits by lia.
  rewrite !Z.shiftr_div_pow2 by lia.
  assert (Hm : 0 <= get_u8 bs 0 mod 2 ^ 3 < 2 ^ 3)
    by (apply Z.mod_pos_bound; reflexivity).
  assert (Hv : 0 <= (get_u8 bs 0 / 2 ^ 3) mod 2 ^ 3 < 2 ^ 3)
    by (apply Z.mod_pos_bound; reflexivity).
  assert (Hl : 0 <= get_u8 bs 0 / 2 ^ 6 < 2 ^ 2)
    by (pow2; Z.div_mod_to_equations; lia).
  rewrite !andb_true_iff, !is_uint_spec.
  repeat match goal with |- _ /\ _ => split end;
    first [ reflexivity | apply Hm | apply Hv | apply Hl
          | apply get_u8_range | apply get_be16_range | apply get_be32_range ].
Qed.

(** C6: a full timestamp is 64 bits wide, a 32-bit unsigned [whole] in the
    upper half and a 32-bit unsigned [fraction] in the lower half; read as
    one number it counts units of 2^-32 s, and the fraction alone stands
    for a value of at least 0 and below 1 second.  The four timestamps
    of a packet are declared with this type; the bound holds of each of
    them, and of whatever a 48-byte datagram is decoded to. *)
Theorem ntp_time64_fixed_point :
  (8 * CType.sizeof CType.ntp_time64_t = 64)%nat /\
  map (fun s => (CType.slot_name s, CType.slot_bit s, CType.slot_width s))
      (CType.layout CType.ntp_time64_t)
    = [("whole", 0, 32); ("fraction", 32, 32)]%nat /\
  map (fun name =>
         option_map CType.slot_width (CType.find_slot CType.ntp_packet_t name))
      ["reference_time"; "originate_time"; "receive_time"; "transmit_time"]
    = map Some [64; 64; 64; 64]%nat /\
  (forall t : Ntp.ntp_time64_t,
     Ntp.time64_ok t = true ->
     0 <= Ntp.whole t < 2 ^ 32 /\
     0 <= Ntp.fraction t < 2 ^ 32 /\
     0 <= Ntp.time64_bits t < 2 ^ 64 /\
     (Ntp.seconds t == Qmake (Ntp.time64_bits t) (2 ^ 32))%Q /\
     (Ntp.fraction_seconds t == inject_Z (Ntp.fraction t) * Qmake 1 (2 ^ 32))%Q /\
     (0 <= Ntp.fraction_seconds t)%Q /\ (Ntp.fraction_seconds t < 1)%Q) /\
  (forall p : Ntp.ntp_packet_t,
     Ntp.packet_ok p = true ->
     forall t, In t (Ntp.timestamps p) ->
       (0 <= Ntp.fraction_seconds t)%Q /\ (Ntp.fraction_seconds t < 1)%Q) /\
  (forall (bs : list byte) (p : Ntp.ntp_packet_t),
     PacketCodec.decode bs = Some p ->
     forall t, In t (Ntp.timestamps p) ->
       (0 <= Ntp.fraction_seconds t)%Q /\ (Ntp.fraction_seconds t < 1)%Q).
Proof.
  assert (Hfrac : forall t, Ntp.time64_ok t = true ->
            (0 <= Ntp.fraction_seconds t)%Q /\ (Ntp.fraction_seconds t < 1)%Q).
  { intros t Ht. apply time64_ok_spec in Ht. destruct Ht as [_ Hf].
    unfold Ntp.fraction_seconds, Qle, Qlt. cbn. lia. }
  split; [reflexivity|]. split; [reflexivity|]. split; [reflexivity|].
  split; [|split].
  - intros t Ht. pose proof (Hfrac t Ht) as [Hf0 Hf1].
    apply time64_ok_spec in Ht. destruct Ht as [Hw Hf].
    split; [exact Hw|]. split; [exact Hf|].
    split; [unfold Ntp.time64_bits; lia|].
    split; [|split; [|split; assumption]].
    + unfold Ntp.seconds, Ntp.fraction_seconds, Ntp.time64_bits, Qeq, Qplus,
        inject_Z. cbn. lia.
    + unfold Ntp.fraction_seconds, Qeq, Qmult, inject_Z. cbn. lia.
  - intros p Hp t Hin. apply Hfrac. eapply packet_ok_timestamps; eassumption.
  - intros bs p Hd t Hin. apply Hfrac.
    eapply packet_ok_timestamps; [eapply decode_packet_ok|]; eassumption.
Qed.

(** C3: the codec round-trips.  Every packet value whose fields lie
    within their declared widths is decoded, from the bytes it is encoded
    to, as itself; and when it is a reply the validation rules accept, the
    validating decoder hands it on as it was encoded. *)
Theorem codec_round_trip (x : ntp_packet_t) :
  packet_ok x = true ->
  decode (encode x) = Some x /\
  (forall cfg : config,
     client_mode x = mode_server ->
     version_number x = version cfg ->
     leap_indicator x <> leap_alarm ->
     (stratum x <> 0 \/ permit_stratum_zero cfg = true) ->
     decodeResponse cfg (encode x) = inr x).
Proof.
  intros Hok.
  assert (Hraw : decode (encode x) = Some x).
  { revert Hok.
    destruct x as [m v l st po pr [rdw rdf] [rsw rsf] rid [t0w t0f] [t1w t1f]
                     [t2w t2f] [t3w t3f]].
    unfold packet_ok, time32_ok, time64_ok.
    cbn [client_mode version_number leap_indicator stratum poll precision
         root_delay root_dispersion reference_id reference_time originate_time
         receive_time transmit_time short_whole short_fraction whole fraction].
    rewrite !andb_true_iff, !is_uint_spec, Nat.eqb_eq.
    intros H.
    destruct rid as [|a [|b [|c [|d [|e rid]]]]]; cbn [List.length] in H;
      try (exfalso; lia).
    cbn [forallb] in H. rewrite !andb_true_iff, !is_uint_spec in H.
    unfold decode.
    change (List.length (encode _)) with 48%nat. cbn [Nat.eqb].
    unfold get_time64, get_time32.
    rewrite !get_be32_arith, !get_be16_arith. unfold get_u8.
    cbn [encode nth app put_u8 put_be16 put_be32 put_time32 put_time64
         put_reference_id map Nat.add stratum poll precision root_delay
         root_dispersion reference_id reference_time originate_time
         receive_time transmit_time short_whole short_fraction whole fraction].
    rewrite header_byte_arith. cbn [client_mode version_number leap_indicator].
    rewrite !Z_of_byte_of_Z.
    destruct (header_fields m v l) as (Hm & Hv & Hl); try tauto.
    rewrite Hm, Hv, Hl.
    rewrite !Z.shiftr_div_pow2 by lia.
    rewrite !be32_join, !be16_join by tauto.
    rewrite !Z.mod_small by (change 256 with (2 ^ 8); tauto).
    reflexivity.
  }
  split; [exact Hraw|].
  intros cfg Hm Hv Hl Hs. unfold decodeResponse.
  rewrite Hraw, Hm, Hv, !Z.eqb_refl. cbn [negb].
  apply Z.eqb_neq in Hl. rewrite Hl.
  destruct Hs as [Hs | Hs].
  - apply Z.eqb_neq in Hs. rewrite Hs. reflexivity.
  - rewrite Hs, andb_false_r. reflexivity.
Qed.

End CodecFacts.

Lemma ntp_time64_fixed_point_witness :
  (0 <= Ntp.fraction_seconds (Ntp.transmit_time Example.server_reply))%Q /\
  (Ntp.fraction_seconds (Ntp.transmit_time Example.server_reply) < 1)%Q.
Proof.
  destruct ntp_time64_fixed_point as (_ & _ & _ & H & _ & _).
  destruct (H (Ntp.transmit_time Example.server_reply) eq_refl)
    as (_ & _ & _ & _ & _ & H0 & H1).
  split; assumption.
Defined.

Lemma codec_round_trip_witness :
  PacketCodec.decode (PacketCodec.encode Example.server_reply)
    = Some Example.server_reply.
Proof.
  apply (codec_round_trip Example.server_reply). vm_compute. reflexivity.
Defined.

Section WireFacts.
Import Ntp PacketCodec.

(** C5: the order and the byte offsets of the packet's fields.  The three
    bit-fields share the byte at offset 0 (mode in bits 0-2, version in
    bits 3-5, leap indicator in bits 6-7); stratum, poll and precision
    are at 1, 2 and 3; root delay at 4, root dispersion at 8, reference
    id at 12; the reference, originate, receive and transmit timestamps
    at 16, 24, 32 and 40.  The bytes of an encoded packet at each offset
    are the encoding of the field declared there. *)
Theorem ntp_packet_field_offsets :
  map (fun s => (CType.slot_name s, (CType.slot_bit s / 8)%nat,
                 (CType.slot_bit s mod 8)%nat, CType.slot_width s))
      (CType.layout CType.ntp_packet_t)
  = [("client_mode", 0, 0, 3); ("version_number", 0, 3, 3);
     ("leap_indicator", 0, 6, 2);
     ("stratum", 1, 0, 8); ("poll", 2, 0, 8); ("precision", 3, 0, 8);
     ("root_delay", 4, 0, 32); ("root_dispersion", 8, 0, 32);
     ("reference_id", 12, 0, 32);
     ("reference_time", 16, 0, 64); ("originate_time", 24, 0, 64);
     ("receive_time", 32, 0, 64); ("transmit_time", 40, 0, 64)]%nat /\
  map (CType.offsetof CType.ntp_packet_t)
      ["client_mode"; "version_number"; "leap_indicator"; "stratum"; "poll";
       "precision"; "root_delay"; "root_dispersion"; "reference_id";
       "reference_time"; "originate_time"; "receive_time"; "transmit_time"]
  = map Some [0; 0; 0; 1; 2; 3; 4; 8; 12; 16; 24; 32; 40]%nat /\
  forall p : ntp_packet_t,
    slice 0 1 (encode p) = put_u8 (header_byte p) /\
    slice 1 1 (encode p) = put_u8 (stratum p) /\
    slice 2 1 (encode p) = put_u8 (poll p) /\
    slice 3 1 (encode p) = put_u8 (precision p) /\
    slice 4 4 (encode p) = put_time32 (root_delay p) /\
    slice 8 4 (encode p) = put_time32 (root_dispersion p) /\
    slice 12 4 (encode p) = put_reference_id p /\
    slice 16 8 (encode p) = put_time64 (reference_time p) /\
    slice 24 8 (encode p) = put_time64 (originate_time p) /\
    slice 32 8 (encode p) = put_time64 (receive_time p) /\
    slice 40 8 (encode p) = put_time64 (transmit_time p) /\
    (packet_ok p = true ->
     header_byte p =
       leap_indicator p * 2 ^ 6 + version_number p * 2 ^ 3 + client_mode p).
Proof.
  split; [reflexivity|]. split; [reflexivity|].
  intros p. repeat (split; [reflexivity|]).
  unfold packet_ok. rewrite !andb_true_iff, !is_uint_spec.
  intros H. rewrite header_byte_arith. pow2.
  rewrite !Z.mod_small by tauto. reflexivity.
Qed.

Lemma decode_length (bs : list byte) :
  List.length bs <> 48%nat -> decode bs = None.
Proof.
  intros H. unfold decode. apply Nat.eqb_neq in H. rewrite H. reflexivity.
Qed.

(** C7, as amended: a datagram is answered with a [DecodeError], and is
    handed to no consumer (the estimator among them), whenever its length
    is not 48, or its leap indicator is the alarm code, or its stratum is
    zero and stratum zero has not been explicitly permitted, or its mode
    is not the server's. *)
Theorem decodeResponse_rejects (cfg : config) (bs : list byte) :
  (List.length bs <> 48%nat \/
   exists p, decode bs = Some p /\
     (leap_indicator p = leap_alarm \/
      (stratum p = 0 /\ permit_stratum_zero cfg = false) \/
      client_mode p <> mode_server)) ->
  exists e : DecodeError,
    decodeResponse cfg bs = inl e /\
    (forall (R : Type) (consumer : ntp_packet_t -> R),
       receive cfg consumer bs = inl e) /\
    (forall t1 t4 monotonicNow : Q,
       ServerPoller.attempt_result cfg (ServerPoller.Reply t1 t4 monotonicNow bs)
         = inl (ServerPoller.Decode e)).
Proof.
  intros H.
  assert (He : exists e, decodeResponse cfg bs = inl e).
  { unfold decodeResponse. destruct H as [Hlen | (p & Hp & Hbad)].
    - rewrite (decode_length bs Hlen). eauto.
    - rewrite Hp.
      destruct (client_mode p =? mode_server) eqn:Hm; cbn [negb]; [|eauto].
      destruct (version_number p =? version cfg); cbn [negb]; [|eauto].
      destruct (leap_indicator p =? leap_alarm) eqn:Hl; [eauto|].
      destruct Hbad as [Hbad | [[Hs Hperm] | Hbad]].
      + apply Z.eqb_neq in Hl. contradiction.
      + rewrite Hs, Hperm. cbn. eauto.
      + apply Z.eqb_eq in Hm. contradiction. }
  destruct He as [e He]. exists e. split; [exact He|]. split.
  - intros R consumer. unfold receive. rewrite He. reflexivity.
  - intros t1 t4 mono. unfold ServerPoller.attempt_result, receive.
    rewrite He. reflexivity.
Qed.

End WireFacts.

Lemma ntp_packet_field_offsets_witness :
  PacketCodec.slice 0 1 (PacketCodec.encode Example.server_reply) = [x1c] /\
  PacketCodec.header_byte Example.server_reply = 0 * 2 ^ 6 + 3 * 2 ^ 3 + 4.
Proof.
  destruct ntp_packet_field_offsets as (_ & _ & H).
  destruct (H Example.server_reply)
    as (H0 & _ & _ & _ & _ & _ & _ & _ & _ & _ & _ & Hh).
  split.
  - rewrite H0. vm_compute. reflexivity.
  - apply Hh. vm_compute. reflexivity.
Defined.

Lemma decodeResponse_rejects_witness :
  exists e : PacketCodec.DecodeError,
    PacketCodec.decodeResponse Example.codec Example.echoed_request = inl e.
Proof.
  destruct (decodeResponse_rejects Example.codec Example.echoed_request)
    as (e & He & _).
  - right. eexists. split; [vm_compute; reflexivity|].
    right. right. vm_compute. discriminate.
  - exists e. exact He.
Defined.

(** C7, as stated, fails: where stratum zero is explicitly permitted, a
    well-formed server reply of stratum 0 is decoded, not rejected. *)
Lemma permitted_stratum_zero_is_decoded :
  ~ (forall (cfg : PacketCodec.config) (bs : list byte),
       (List.length bs <> 48%nat \/
        exists p, PacketCodec.decode bs = Some p /\
          (Ntp.leap_indicator p = PacketCodec.leap_alarm \/
           Ntp.stratum p = 0 \/
           Ntp.client_mode p <> PacketCodec.mode_server)) ->
       exists e : PacketCodec.DecodeError,
         PacketCodec.decodeResponse cfg bs = inl e).
Proof.
  intros H.
  destruct (H Example.lenient_codec (PacketCodec.encode Example.kiss_of_death))
    as [e He].
  - right. exists Example.kiss_of_death. split; [vm_compute; reflexivity|].
    right. left. reflexivity.
  - vm_compute in He. discriminate He.
Qed.

(** ** RoundTripEstimator *)

Section EstimatorFacts.
Import RoundTripEstimator.

(** C4, as amended: on t1 = 1000.000, t2 = 1000.500, t3 = 1000.600 and
    t4 = 1000.100 the closed forms give an offset of 0.500 s and a
    round-trip delay of 0 s; the delay is not negative, t4 is not before
    t1, and the sample is not rejected. *)
Theorem literal_exchange_estimate :
  (offset Example.t1 Example.t2 Example.t3 Example.t4 == 1 # 2)%Q /\
  (roundTripDelay Example.t1 Example.t2 Example.t3 Example.t4 == 0)%Q /\
  ~ (roundTripDelay Example.t1 Example.t2 Example.t3 Example.t4 < 0)%Q /\
  ~ (Example.t4 < Example.t1)%Q /\
  reject Example.t1 Example.t2 Example.t3 Example.t4 = None.
Proof.
  split; [reflexivity|]. split; [reflexivity|].
  split; [intros H; vm_compute in H; discriminate H|].
  split; [intros H; vm_compute in H; discriminate H|].
  reflexivity.
Qed.

(** The closed forms, for any four instants: the delay is negative
    exactly when the server claims to have held the request for longer
    than the whole exchange took. *)
Lemma reject_negative_delay (t1 t2 t3 t4 : Q) :
  reject t1 t2 t3 t4 = Some NegativeDelay <->
  (t4 - t1 < t3 - t2)%Q.
Proof.
  unfold reject, Qltb, roundTripDelay.
  destruct (Qle_bool 0 (t4 - t1 - (t3 - t2))) eqn:E; cbn [negb].
  - apply Qle_bool_iff in E. split.
    + destruct (negb (Qle_bool t1 t4)); discriminate.
    + intros H. exfalso. apply (Qlt_not_le _ _ H).
      apply (Qplus_le_l _ _ (- (t3 - t2))). rewrite Qplus_opp_r. exact E.
  - split; [intros _|reflexivity].
    apply Qnot_le_lt. intros H.
    assert (Hle : Qle_bool 0 (t4 - t1 - (t3 - t2)) = true).
    { apply Qle_bool_iff.
      apply (Qplus_le_l _ _ (- (t3 - t2))) in H.
      rewrite Qplus_opp_r in H. exact H. }
    congruence.
Qed.

End EstimatorFacts.

(** C4, as stated, fails: the delay of the literal exchange is not
    -0.400 s, and the sample is not rejected. *)
Lemma literal_exchange_delay_is_not_negative :
  ~ ((RoundTripEstimator.offset Example.t1 Example.t2 Example.t3 Example.t4
        == 1 # 2)%Q /\
     (RoundTripEstimator.roundTripDelay Example.t1 Example.t2 Example.t3
        Example.t4 == - (4 # 10))%Q /\
     RoundTripEstimator.reject Example.t1 Example.t2 Example.t3 Example.t4
       = Some RoundTripEstimator.NegativeDelay).
Proof.
  intros (_ & Hd & _). vm_compute in Hd. discriminate Hd.
Qed.

(** ** ServerPoller and SyncCoordinator *)

Section CoordinatorFacts.
Import UptimeAnchor ServerPoller SyncCoordinator.

Lemma start_keeps_anchor (st : State) : start st = Syncing (anchor st).
Proof. destruct st; reflexivity. Qed.

(** Too few valid samples: the round fails with [InsufficientSamples]
    and lists the endpoints that failed. *)
Lemma select_insufficient (cfg : config)
    (results : list (endpoint * (EndpointFailure + Sample.t))) :
  (List.length (valid_samples cfg results) < minimum_accept cfg)%nat ->
  select cfg results = RoundFailed InsufficientSamples (failures results).
Proof.
  intros H. unfold select. apply Nat.ltb_lt in H. rewrite H. reflexivity.
Qed.

(** Any failed round, begun in any state, ends in [Failed] with the
    anchor held before. *)
Lemma failed_round_keeps_anchor (st : State) (why : RoundFailure)
    (failed : list (endpoint * EndpointFailure)) (now_wall now_monotonic : Q) :
  finish (start st) (RoundFailed why failed) now_wall now_monotonic
    = (Failed (anchor st) why, Some (SyncFailed why)).
Proof.
  rewrite start_keeps_anchor. reflexivity.
Qed.

(** C8: a round that ends with fewer valid samples than the minimum
    reports [InsufficientSamples]; the coordinator goes to [Failed], the
    anchor it held before (if any) is the anchor it holds after, and a
    time query is answered from it as before. *)
Theorem insufficient_samples_keep_anchor
    (codec : PacketCodec.config) (cfg : config)
    (round : list (endpoint * list attempt)) (now_wall now_monotonic : Q)
    (st : State) :
  (List.length (valid_samples cfg (poll codec cfg round))
     < minimum_accept cfg)%nat ->
  let st' := fst (forceSync codec cfg round now_wall now_monotonic st) in
  let outcome := snd (forceSync codec cfg round now_wall now_monotonic st) in
  outcome = RoundFailed InsufficientSamples (failures (poll codec cfg round)) /\
  st' = Failed (anchor st) InsufficientSamples /\
  snd (finish (start st) outcome now_wall now_monotonic)
    = Some (SyncFailed InsufficientSamples) /\
  anchor st' = anchor st /\
  isSynced st' = false /\
  (forall t : Q, currentTime st' t = currentTime st t) /\
  (forall (a : Anchor) (t : Q),
     anchor st = Some a ->
     currentTime st' t = inr (correctedWallTime a + (t - monotonicAtCapture a))%Q).
Proof.
  intros H. cbv zeta. unfold forceSync, run_round. cbn [fst snd].
  rewrite (select_insufficient cfg _ H), failed_round_keeps_anchor.
  cbn [fst snd anchor isSynced]. repeat split.
  intros a t Ha. unfold currentTime. cbn [anchor]. rewrite Ha. reflexivity.
Qed.

End CoordinatorFacts.

Lemma insufficient_samples_keep_anchor_witness :
  fst (SyncCoordinator.forceSync Example.codec Example.poller Example.one_of_two
         (inject_Z 3913056101) 5000 (SyncCoordinator.Synced Example.earlier_anchor))
  = SyncCoordinator.Failed (Some Example.earlier_anchor)
      ServerPoller.InsufficientSamples.
Proof.
  destruct (insufficient_samples_keep_anchor Example.codec Example.poller
              Example.one_of_two (inject_Z 3913056101) 5000
              (SyncCoordinator.Synced Example.earlier_anchor))
    as (_ & H & _).
  - vm_compute. lia.
  - exact H.
Defined.

(** * Further properties of the sources *)

(** ** uptime.c *)

Section UptimeCalls.
Import Uptime.

Variables time_t_bits suseconds_t_bits : positive.

Hypothesis suseconds_t_range : 1000000 < 2 ^ (Z.pos suseconds_t_bits - 1).

(** On readings as the two calls hand them out, lines 25 and 26 cannot
    overflow: the stored pair is the exact difference. *)
Lemma uptime_exact (h : host) (m : mem) :
  gettimeofday_ret h = 0 -> sysctl_ret h = 0 ->
  canonical (gettimeofday_now h) -> canonical (sysctl_boottime h) ->
  representable time_t_bits suseconds_t_bits (gettimeofday_now h) ->
  representable time_t_bits suseconds_t_bits (sysctl_boottime h) ->
  tv (uptime_mem time_t_bits suseconds_t_bits h m) =
    {| tv_sec := tv_sec (gettimeofday_now h) - tv_sec (sysctl_boottime h);
       tv_usec := tv_usec (gettimeofday_now h) - tv_usec (sysctl_boottime h) |}.
Proof.
  intros Hg Hs Hcn Hcb Hrn Hrb. unfold uptime_mem.
  pose proof (uptime_succeeded time_t_bits suseconds_t_bits h m Hg Hs) as Hu.
  cbv zeta in Hu. rewrite Hu. cbn [snd tv].
  destruct (canonical_difference_fits time_t_bits suseconds_t_bits
              suseconds_t_range _ _ Hcn Hcb Hrn Hrb) as [Hf1 Hf2].
  apply difference_exact; assumption.
Qed.

(** X1: a failed call is decided by the return codes alone.  When
    [gettimeofday] fails, nothing [sysctl] answers and nothing left in
    either buffer matters; when [sysctl] fails, neither reading matters.
    In both cases [*tv] and the list of stores stay as they were. *)
Theorem uptime_failure_ignores_buffers (h1 h2 : host) (m : mem) :
  gettimeofday_ret h1 = gettimeofday_ret h2 ->
  (gettimeofday_ret h1 <> 0 \/
   (sysctl_ret h1 = sysctl_ret h2 /\ sysctl_ret h1 <> 0)) ->
  uptime time_t_bits suseconds_t_bits h1 m =
    uptime time_t_bits suseconds_t_bits h2 m /\
  uptime_mem time_t_bits suseconds_t_bits h1 m = m.
Proof.
  intros Hg Hfail. unfold uptime_mem.
  destruct (Z.eq_dec (gettimeofday_ret h1) 0) as [Hz | Hnz].
  - destruct Hfail as [Hbad | [Hs Hsn]]; [contradiction|].
    rewrite (uptime_sysctl_failed _ _ h1 m Hz Hsn).
    rewrite (uptime_sysctl_failed _ _ h2 m); [| congruence | congruence].
    rewrite Hs. split; reflexivity.
  - rewrite (uptime_gettimeofday_failed _ _ h1 m Hnz).
    rewrite (uptime_gettimeofday_failed _ _ h2 m) by congruence.
    rewrite Hg. split; reflexivity.
Qed.

(** The return code does not depend on what [*tv] held. *)
Lemma uptime_ret_any_mem (h : host) (m m' : mem) :
  uptime_ret time_t_bits suseconds_t_bits h m =
  uptime_ret time_t_bits suseconds_t_bits h m'.
Proof.
  unfold uptime_ret.
  destruct (Z.eq_dec (gettimeofday_ret h) 0) as [Hg | Hg].
  - destruct (Z.eq_dec (sysctl_ret h) 0) as [Hs | Hs].
    + pose proof (uptime_succeeded time_t_bits suseconds_t_bits h m Hg Hs) as H1.
      pose proof (uptime_succeeded time_t_bits suseconds_t_bits h m' Hg Hs) as H2.
      cbv zeta in H1, H2. rewrite H1, H2. reflexivity.
    + rewrite !(uptime_sysctl_failed _ _ h _ Hg Hs). reflexivity.
  - rewrite !(uptime_gettimeofday_failed _ _ h _ Hg). reflexivity.
Qed.

(** X2: two calls in a row on the same [tv].  The code returned is the
    second call's.  When the second call succeeds, [*tv] holds what the
    second call alone would have stored, whatever the first one did; when
    it fails, [*tv] and the stores are exactly what the first call left. *)
Theorem uptime_twice (h1 h2 : host) (m : mem) :
  let both :=
    bind (uptime time_t_bits suseconds_t_bits h1)
         (fun _ => uptime time_t_bits suseconds_t_bits h2) m in
  fst both = uptime_ret time_t_bits suseconds_t_bits h2 m /\
  (fst both = 0 ->
   tv (snd both) = tv (uptime_mem time_t_bits suseconds_t_bits h2 m)) /\
  (fst both <> 0 ->
   snd both = uptime_mem time_t_bits suseconds_t_bits h1 m).
Proof.
  cbv zeta. unfold bind, uptime_mem.
  destruct (uptime time_t_bits suseconds_t_bits h1 m) as [r1 m1] eqn:E1.
  cbn [snd].
  split; [apply (uptime_ret_any_mem h2 m1 m)|].
  destruct (Z.eq_dec (gettimeofday_ret h2) 0) as [Hg | Hg].
  - destruct (Z.eq_dec (sysctl_ret h2) 0) as [Hs | Hs].
    + pose proof (uptime_succeeded time_t_bits suseconds_t_bits h2 m1 Hg Hs) as H1.
      pose proof (uptime_succeeded time_t_bits suseconds_t_bits h2 m Hg Hs) as H2.
      cbv zeta in H1, H2. rewrite H1, H2. cbn [fst snd tv].
      split; [reflexivity | intros Hne; contradiction Hne; reflexivity].
    + rewrite (uptime_sysctl_failed _ _ h2 m1 Hg Hs). cbn [fst snd].
      split; [intros Hz; contradiction | reflexivity].
  - rewrite (uptime_gettimeofday_failed _ _ h2 m1 Hg). cbn [fst snd].
    split; [intros Hz; contradiction | reflexivity].
Qed.

(** X3: on readings as the two calls hand them out, a successful call
    stores a [tv_usec] strictly between -1000000 and 1000000, and the
    stored pair stands for the elapsed time exactly: seconds times a
    million plus microseconds is the current reading in microseconds less
    the boot time in microseconds, also when [tv_usec] is negative. *)
Theorem uptime_elapsed_microseconds (h : host) (m : mem) :
  gettimeofday_ret h = 0 -> sysctl_ret h = 0 ->
  canonical (gettimeofday_now h) -> canonical (sysctl_boottime h) ->
  representable time_t_bits suseconds_t_bits (gettimeofday_now h) ->
  representable time_t_bits suseconds_t_bits (sysctl_boottime h) ->
  let usec_per_sec := Bridging.USEC_PER_MSEC * Bridging.MSEC_PER_SEC in
  let out := tv (uptime_mem time_t_bits suseconds_t_bits h m) in
  - usec_per_sec < tv_usec out < usec_per_sec /\
  tv_sec out * usec_per_sec + tv_usec out =
    (tv_sec (gettimeofday_now h) * usec_per_sec + tv_usec (gettimeofday_now h))
    - (tv_sec (sysctl_boottime h) * usec_per_sec + tv_usec (sysctl_boottime h)).
Proof.
  intros Hg Hs Hcn Hcb Hrn Hrb. cbv zeta.
  rewrite (uptime_exact h m Hg Hs Hcn Hcb Hrn Hrb). cbn [tv_sec tv_usec].
  unfold canonical, Bridging.USEC_PER_MSEC, Bridging.MSEC_PER_SEC in *.
  destruct Hcn as [_ Hn]. destruct Hcb as [_ Hb]. lia.
Qed.

(** X4: when the stored result is itself canonical.  On canonical
    readings a successful call leaves a canonical [*tv] exactly when
    neither field of the current reading is below the boot time's. *)
Theorem uptime_canonical_iff (h : host) (m : mem) :
  gettimeofday_ret h = 0 -> sysctl_ret h = 0 ->
  canonical (gettimeofday_now h) -> canonical (sysctl_boottime h) ->
  representable time_t_bits suseconds_t_bits (gettimeofday_now h) ->
  representable time_t_bits suseconds_t_bits (sysctl_boottime h) ->
  (canonical (tv (uptime_mem time_t_bits suseconds_t_bits h m)) <->
   tv_sec (sysctl_boottime h) <= tv_sec (gettimeofday_now h) /\
   tv_usec (sysctl_boottime h) <= tv_usec (gettimeofday_now h)).
Proof.
  intros Hg Hs Hcn Hcb Hrn Hrb.
  rewrite (uptime_exact h m Hg Hs Hcn Hcb Hrn Hrb).
  unfold canonical, Bridging.USEC_PER_MSEC, Bridging.MSEC_PER_SEC in *.
  cbn [tv_sec tv_usec]. lia.
Qed.

(** X5: with the boot-time record unchanged, the result follows the wall
    clock one for one: between two successful calls each stored field
    moves by what the same field of the wall-clock reading moved by, so a
    wall clock that did not go back in a field gives a result that did
    not go back in it. *)
Theorem uptime_tracks_wall_clock (h1 h2 : host) (m1 m2 : mem) :
  gettimeofday_ret h1 = 0 -> sysctl_ret h1 = 0 ->
  gettimeofday_ret h2 = 0 -> sysctl_ret h2 = 0 ->
  sysctl_boottime h1 = sysctl_boottime h2 ->
  canonical (gettimeofday_now h1) -> canonical (gettimeofday_now h2) ->
  canonical (sysctl_boottime h1) ->
  representable time_t_bits suseconds_t_bits (gettimeofday_now h1) ->
  representable time_t_bits suseconds_t_bits (gettimeofday_now h2) ->
  representable time_t_bits suseconds_t_bits (sysctl_boottime h1) ->
  let out1 := tv (uptime_mem time_t_bits suseconds_t_bits h1 m1) in
  let out2 := tv (uptime_mem time_t_bits suseconds_t_bits h2 m2) in
  tv_sec out2 - tv_sec out1 =
    tv_sec (gettimeofday_now h2) - tv_sec (gettimeofday_now h1) /\
  tv_usec out2 - tv_usec out1 =
    tv_usec (gettimeofday_now h2) - tv_usec (gettimeofday_now h1) /\
  (tv_sec (gettimeofday_now h1) <= tv_sec (gettimeofday_now h2) ->
   tv_sec out1 <= tv_sec out2) /\
  (tv_usec (gettimeofday_now h1) <= tv_usec (gettimeofday_now h2) ->
   tv_usec out1 <= tv_usec out2).
Proof.
  intros Hg1 Hs1 Hg2 Hs2 Hboot Hcn1 Hcn2 Hcb Hrn1 Hrn2 Hrb. cbv zeta.
  rewrite (uptime_exact h1 m1 Hg1 Hs1 Hcn1 Hcb Hrn1 Hrb).
  rewrite (uptime_exact h2 m2 Hg2 Hs2 Hcn2)
    by (try rewrite <- Hboot; assumption).
  rewrite <- Hboot. cbn [tv_sec tv_usec]. lia.
Qed.

End UptimeCalls.

(** Discharges what a witness has to show of a concrete reading. *)
Ltac concrete_reading :=
  first
    [ reflexivity
    | discriminate
    | unfold Uptime.canonical, Uptime.representable, fits_signed,
        Bridging.USEC_PER_MSEC, Bridging.MSEC_PER_SEC; cbn; lia ].

Lemma uptime_failure_ignores_buffers_witness :
  Uptime.uptime 64 32 Example.gettimeofday_fails Example.caller_tv =
  Uptime.uptime 64 32 Example.gettimeofday_fails_again Example.caller_tv.
Proof.
  apply (uptime_failure_ignores_buffers 64 32 Example.gettimeofday_fails
           Example.gettimeofday_fails_again Example.caller_tv).
  - reflexivity.
  - left. discriminate.
Defined.

Lemma uptime_twice_witness :
  Uptime.tv
    (snd (Uptime.bind (Uptime.uptime 64 32 Example.hour_after_boot)
            (fun _ => Uptime.uptime 64 32 Example.sysctl_fails)
            Example.caller_tv))
  = {| Uptime.tv_sec := 3600; Uptime.tv_usec := -800000 |}.
Proof.
  destruct (uptime_twice 64 32 Example.hour_after_boot Example.sysctl_fails
              Example.caller_tv) as (_ & _ & H).
  rewrite H by (vm_compute; discriminate).
  vm_compute. reflexivity.
Defined.

Lemma uptime_elapsed_microseconds_witness :
  let out :=
    Uptime.tv (Uptime.uptime_mem 64 32 Example.hour_after_boot Example.caller_tv)
  in
  Uptime.tv_sec out * 1000000 + Uptime.tv_usec out = 3599200000.
Proof.
  cbv zeta.
  destruct (uptime_elapsed_microseconds 64 32 eq_refl Example.hour_after_boot
              Example.caller_tv) as [_ H]; [concrete_reading .. |].
  cbv zeta in H.
  unfold Bridging.USEC_PER_MSEC, Bridging.MSEC_PER_SEC in H.
  change (1000 * 1000) with 1000000 in H. rewrite H.
  vm_compute. reflexivity.
Defined.

Lemma uptime_canonical_iff_witness :
  Uptime.canonical
    (Uptime.tv (Uptime.uptime_mem 64 32 Example.half_minute_later
                  Example.caller_tv)).
Proof.
  apply (uptime_canonical_iff 64 32 eq_refl Example.half_minute_later
           Example.caller_tv); concrete_reading.
Defined.

Lemma uptime_tracks_wall_clock_witness :
  Uptime.tv_sec
    (Uptime.tv (Uptime.uptime_mem 64 32 Example.half_minute_later
                  Example.caller_tv))
  - Uptime.tv_sec
      (Uptime.tv (Uptime.uptime_mem 64 32 Example.hour_after_boot
                    Example.caller_tv))
  = 1700003630 - 1700003600.
Proof.
  destruct (uptime_tracks_wall_clock 64 32 eq_refl Example.hour_after_boot
              Example.half_minute_later Example.caller_tv Example.caller_tv)
    as (H & _); [concrete_reading .. |].
  exact H.
Defined.

(** ** ntp_types.h *)

Section TypeFacts.
Import Ntp PacketCodec.

(** X6: the short time format is 32 bits wide, a 16-bit unsigned [whole]
    at byte 0 and a 16-bit unsigned [fraction] at byte 2; the packet
    declares its root delay and root dispersion with it.  The two halves
    of a value do not overlap: each is read back from the 32-bit number
    they form together. *)
Theorem ntp_time32_layout :
  CType.sizeof CType.ntp_time32_t = 4%nat /\
  map (fun s => (CType.slot_name s, (CType.slot_bit s / 8)%nat,
                 CType.slot_width s))
      (CType.layout CType.ntp_time32_t)
    = [("whole", 0, 16); ("fraction", 2, 16)]%nat /\
  map (fun name =>
         option_map CType.slot_width (CType.find_slot CType.ntp_packet_t name))
      ["root_delay"; "root_dispersion"]
    = map Some [32; 32]%nat /\
  forall t : ntp_time32_t,
    time32_ok t = true ->
    let bits := short_whole t * 2 ^ 16 + short_fraction t in
    0 <= short_whole t < 2 ^ 16 /\
    0 <= short_fraction t < 2 ^ 16 /\
    0 <= bits < 2 ^ 32 /\
    Z.shiftr bits 16 = short_whole t /\
    Z.land bits (2 ^ 16 - 1) = short_fraction t.
Proof.
  split; [reflexivity|]. split; [reflexivity|]. split; [reflexivity|].
  intros t Ht. cbv zeta. apply time32_ok_spec in Ht. destruct Ht as [Hw Hf].
  rewrite Z.shiftr_div_pow2, land_low_bits by lia. pow2.
  repeat match goal with |- _ /\ _ => split end;
    try lia; Z.div_mod_to_equations; lia.
Qed.

(** X7: the three packed records have no padding and no overlapping
    members: in each the members follow each other bit for bit from bit
    0, and their widths add up to the size of the record.  The packet is
    its four leading bytes, two short times, four reference-id bytes and
    four full timestamps. *)
Theorem ntp_records_are_tight (t : CType.ctype) :
  In t [CType.ntp_time32_t; CType.ntp_time64_t; CType.ntp_packet_t] ->
  CType.abutting 0 (CType.layout t) = true /\
  CType.total_width (CType.layout t) = (8 * CType.sizeof t)%nat /\
  CType.sizeof CType.ntp_packet_t =
    (4 * CType.sizeof CType.uint8_t + 2 * CType.sizeof CType.ntp_time32_t +
     CType.sizeof (CType.array CType.uint8_t 4) +
     4 * CType.sizeof CType.ntp_time_t)%nat.
Proof.
  intros [<- | [<- | [<- | []]]]; repeat split; reflexivity.
Qed.

(** X8: the three bit-fields fill one byte and do not overlap.  The byte
    they share is below 256; its bits 0-2 are [client_mode], its bits 3-5
    [version_number], its bits 6-7 [leap_indicator], each cut to its
    declared width; two packets whose fields are within their widths and
    share the byte agree on all three fields; and every byte is the byte
    of the three fields read out of it. *)
Theorem header_byte_bit_fields (p : ntp_packet_t) :
  0 <= header_byte p < 2 ^ 8 /\
  Z.land (header_byte p) 7 = client_mode p mod 2 ^ 3 /\
  Z.land (Z.shiftr (header_byte p) 3) 7 = version_number p mod 2 ^ 3 /\
  Z.shiftr (header_byte p) 6 = leap_indicator p mod 2 ^ 2 /\
  (forall q : ntp_packet_t,
     packet_ok p = true -> packet_ok q = true ->
     header_byte p = header_byte q ->
     client_mode p = client_mode q /\
     version_number p = version_number q /\
     leap_indicator p = leap_indicator q) /\
  (forall b : Z,
     0 <= b < 2 ^ 8 ->
     client_mode p = Z.land b 7 ->
     version_number p = Z.land (Z.shiftr b 3) 7 ->
     leap_indicator p = Z.shiftr b 6 ->
     header_byte p = b).
Proof.
  assert (Hparts : forall x : ntp_packet_t,
            0 <= header_byte x < 2 ^ 8 /\
            Z.land (header_byte x) 7 = client_mode x mod 2 ^ 3 /\
            Z.land (Z.shiftr (header_byte x) 3) 7 = version_number x mod 2 ^ 3 /\
            Z.shiftr (header_byte x) 6 = leap_indicator x mod 2 ^ 2).
  { intros x. rewrite header_byte_arith.
    change 7 with (2 ^ 3 - 1). rewrite !land_low_bits by lia.
    rewrite !Z.shiftr_div_pow2 by lia. pow2.
    pose proof (Z.mod_pos_bound (leap_indicator x) 4 eq_refl) as Hl.
    pose proof (Z.mod_pos_bound (version_number x) 8 eq_refl) as Hv.
    pose proof (Z.mod_pos_bound (client_mode x) 8 eq_refl) as Hm.
    revert Hl Hv Hm.
    generalize (leap_indicator x mod 4), (version_number x mod 8),
      (client_mode x mod 8). intros l v m Hl Hv Hm.
    repeat match goal with |- _ /\ _ => split end;
      try lia; Z.div_mod_to_equations; lia. }
  destruct (Hparts p) as (Hr & Hm & Hv & Hl).
  split; [exact Hr|]. split; [exact Hm|]. split; [exact Hv|].
  split; [exact Hl|]. split.
  - intros q Hp Hq Heq.
    destruct (Hparts q) as (_ & Hmq & Hvq & Hlq).
    rewrite Heq in Hm, Hv, Hl.
    unfold packet_ok in Hp, Hq.
    rewrite !andb_true_iff, !is_uint_spec in Hp, Hq.
    rewrite Z.mod_small in Hm, Hv, Hl, Hmq, Hvq, Hlq by tauto.
    repeat split; congruence.
  - intros b Hb Hbm Hbv Hbl. rewrite header_byte_arith, Hbm, Hbv, Hbl.
    change 7 with (2 ^ 3 - 1). rewrite !land_low_bits by lia.
    rewrite !Z.shiftr_div_pow2 by lia. pow2.
    Z.div_mod_to_equations. lia.
Qed.

End TypeFacts.

Lemma ntp_time32_layout_witness :
  0 <= Ntp.short_fraction (Ntp.root_delay Example.server_reply) < 2 ^ 16.
Proof.
  destruct ntp_time32_layout as (_ & _ & _ & H).
  destruct (H (Ntp.root_delay Example.server_reply) eq_refl) as (_ & Hf & _).
  exact Hf.
Defined.

Lemma ntp_records_are_tight_witness :
  CType.abutting 0 (CType.layout CType.ntp_packet_t) = true /\
  CType.total_width (CType.layout CType.ntp_packet_t) = 384%nat.
Proof.
  destruct (ntp_records_are_tight CType.ntp_packet_t) as (Ha & Hw & _).
  - right. right. left. reflexivity.
  - split; [exact Ha | exact Hw].
Defined.

Lemma header_byte_bit_fields_witness :
  PacketCodec.header_byte Example.server_reply = 28.
Proof.
  destruct (header_byte_bit_fields Example.server_reply)
    as (_ & _ & _ & _ & _ & H).
  apply (H 28); [lia | reflexivity ..].
Defined.

Section TimestampOrder.
Import Ntp.

(** X9: the 64 bits of a full timestamp determine it and order it.  Two
    timestamps with the same 64-bit reading are the same; one reading is
    below another exactly when its [whole] is, or the wholes agree and its
    [fraction] is; and each half is read back from the 64 bits. *)
Theorem time64_bits_order (a b : ntp_time64_t) :
  time64_ok a = true -> time64_ok b = true ->
  (time64_bits a = time64_bits b <-> a = b) /\
  (time64_bits a < time64_bits b <->
   whole a < whole b \/ (whole a = whole b /\ fraction a < fraction b)) /\
  Z.shiftr (time64_bits a) 32 = whole a /\
  Z.land (time64_bits a) (2 ^ 32 - 1) = fraction a.
Proof.
  intros Ha Hb. apply time64_ok_spec in Ha. apply time64_ok_spec in Hb.
  destruct a as [wa fa], b as [wb fb]. unfold time64_bits.
  cbn [whole fraction] in *.
  rewrite Z.shiftr_div_pow2, land_low_bits by lia. pow2.
  split; [|split; [|split]].
  - split.
    + intros Heq. assert (wa = wb) by lia. assert (fa = fb) by lia. congruence.
    + intros Heq. injection Heq as -> ->. reflexivity.
  - lia.
  - Z.div_mod_to_equations. lia.
  - Z.div_mod_to_equations. lia.
Qed.

End TimestampOrder.

Lemma time64_bits_order_witness :
  Ntp.time64_bits (Ntp.receive_time Example.server_reply) <
  Ntp.time64_bits (Ntp.transmit_time Example.server_reply).
Proof.
  destruct (time64_bits_order (Ntp.receive_time Example.server_reply)
              (Ntp.transmit_time Example.server_reply) eq_refl eq_refl)
    as (_ & H & _).
  apply H. right. split; [reflexivity | cbn; lia].
Defined.
